(** * Request-scoped event tracing: [sglang/srt/disaggregation/trace_utils.py]

    A shallow embedding of the [_EventContext] recorder and of the two
    process-wide accessors, together with the part of Python's [logging],
    [time] and [json] modules that the recorder drives.

    - Python objects that are shared and mutated (the [extra_data]
      dictionaries, the recorder instances, the loggers of the logging
      manager) live in stores of the [World]; references are addresses or
      registry keys, so aliasing is visible.
    - Code that threads state and may raise is written in the monad [M].
    - Floating point values are kept abstract ([PyFloat]): the recorder only
      subtracts two clock readings, multiplies by 1000 and calls [round]. *)

From stdpp Require Import base option list strings gmap.
From Stdlib Require Import ZArith Lia Ascii.

Local Open Scope string_scope.
Local Open Scope list_scope.
Local Open Scope Z_scope.

(** ** Floating point interface *)

(** What the recorder asks of Python floats and of [datetime]. *)
Class PyFloat := {
  float : Type;
  (** [a - b] *)
  fsub : float → float → float;
  (** [a * n] for an integer literal [n] *)
  fmul_int : float → Z → float;
  (** [round(a, ndigits)] *)
  fround : float → Z → float;
  (** [datetime.fromtimestamp(a).isoformat()] *)
  isoformat : float → string
}.

(** A sample instance used by the closed examples: clock readings that are
    whole seconds of the first day of the epoch, read in UTC. On such
    values subtraction, multiplication by 1000 and [round(_, 3)] are exact
    in binary64. *)
Module WholeSeconds.

Definition digit (n : Z) : string :=
  String (Ascii.ascii_of_nat (48 + Z.to_nat (n mod 10))) "".

Definition two_digits (n : Z) : string :=
  digit (n / 10) +:+ digit n.

Definition iso (t : Z) : string :=
  let s := t mod 86400 in
  "1970-01-01T" +:+ two_digits (s / 3600) +:+ ":" +:+
  two_digits ((s / 60) mod 60) +:+ ":" +:+ two_digits (s mod 60).

Definition ops : PyFloat :=
  {| float := Z; fsub := Z.sub; fmul_int := Z.mul;
     fround := fun a _ => a; isoformat := iso |}.

End WholeSeconds.

(** ** JSON values and Python dictionaries *)

Section Model.

Context {PF : PyFloat}.

#[warnings="-register-all"]
Inductive json :=
| JNull
| JBool (b : bool)
| JNum (x : float)
| JInt (n : Z)
| JStr (s : string)
| JArr (items : list json)
| JObj (fields : list (string * json)).

(** A Python [dict] with string keys: insertion ordered, keys unique. *)
Definition pydict := list (string * json).

Fixpoint dict_get (k : string) (d : pydict) : option json :=
  match d with
  | [] => None
  | (k', v) :: d' => if String.eqb k k' then Some v else dict_get k d'
  end.

(** [d[k] = v]: overwrite in place when the key exists, append otherwise. *)
Fixpoint dict_set (k : string) (v : json) (d : pydict) : pydict :=
  match d with
  | [] => [(k, v)]
  | (k', v') :: d' =>
      if String.eqb k k' then (k', v) :: d' else (k', v') :: dict_set k v d'
  end.

(** Truth value of a dictionary: empty is false. *)
Definition dict_truthy (d : pydict) : bool :=
  match d with [] => false | _ => true end.

(** Truth value of a string: empty is false. *)
Definition str_truthy (s : string) : bool :=
  match s with EmptyString => false | _ => true end.

(** Member of a JSON object, [None] when the key is not there (or the value
    is no object). *)
Definition jfield (k : string) (j : json) : option json :=
  match j with
  | JObj fields => dict_get k fields
  | _ => None
  end.

(** ** The logging module *)

(** Of [logging] the embedding keeps what the recorder relies on: the
    manager's registry of loggers by name, each logger's level, handler
    list and [propagate] flag, the walk up the dotted names for the
    effective level and for the handlers called, the manager-wide
    [disable] threshold, and file handlers appending one line per record.
    Left out: the [disabled] flag and the filters of loggers and handlers,
    handlers other than file handlers, normalisation of paths, and I/O
    failures (opening and writing always succeed). A record that finds no
    handler at all goes to [lastResort], whose level is WARNING, so an INFO
    record is dropped there. *)

Definition NOTSET : Z := 0.
Definition INFO : Z := 20.
Definition WARNING : Z := 30.

(** A [logging.FileHandler]: the object's identity, the file it appends to,
    the format string of its formatter and its level. *)
Record Handler := mkHandler {
  h_id : nat;
  h_file : string;
  h_fmt : string;
  h_level : Z
}.

(** A [logging.Logger]. *)
Record Logger := mkLogger {
  lg_level : Z;
  lg_handlers : list Handler;
  lg_propagate : bool
}.

(** One line of a file: the record's message under the handler's format.
    The message is kept as the JSON document that [json.dumps] renders. *)
Record Line := mkLine {
  ln_fmt : string;
  ln_msg : json
}.

(** A raised Python exception object. [f_ordinary] tells whether it is an
    instance of [Exception] (as opposed to [KeyboardInterrupt],
    [SystemExit] and other direct [BaseException] descendants); [f_str] is
    [str(e)]. *)
Record Fault := mkFault {
  f_id : nat;
  f_ordinary : bool;
  f_type : string;
  f_str : string
}.

(** An [_EventContext] instance. The [logger] attribute is only bound by
    [_setup_logger]; it holds the registry key of the logger object. *)
Record Recorder := mkRecorder {
  log_file : string;
  logger_name : string;
  initialized : bool;
  logger : option string
}.

(** ** The state of the process *)

Record World := mkWorld {
  (** successive readings of [time.time()] and how many were consumed *)
  clock : nat → float;
  ticks : nat;
  (** the file system: lines of each file *)
  files : gmap string (list Line);
  (** the logging manager's loggers by name, the root under ["root"] *)
  loggers : gmap string Logger;
  (** [logging.disable] threshold of the manager *)
  log_disable : Z;
  (** heap of dictionaries *)
  dicts : gmap nat pydict;
  (** heap of [_EventContext] instances *)
  recorders : gmap nat Recorder;
  (** the module global [_event_context] *)
  event_context : option nat;
  (** allocator of object identities *)
  next_id : nat
}.

Definition set_ticks (n : nat) (w : World) : World :=
  mkWorld (clock w) n (files w) (loggers w) (log_disable w) (dicts w)
          (recorders w) (event_context w) (next_id w).

Definition set_files (f : gmap string (list Line)) (w : World) : World :=
  mkWorld (clock w) (ticks w) f (loggers w) (log_disable w) (dicts w)
          (recorders w) (event_context w) (next_id w).

Definition set_loggers (l : gmap string Logger) (w : World) : World :=
  mkWorld (clock w) (ticks w) (files w) l (log_disable w) (dicts w)
          (recorders w) (event_context w) (next_id w).

Definition set_dicts (d : gmap nat pydict) (w : World) : World :=
  mkWorld (clock w) (ticks w) (files w) (loggers w) (log_disable w) d
          (recorders w) (event_context w) (next_id w).

Definition set_recorders (r : gmap nat Recorder) (w : World) : World :=
  mkWorld (clock w) (ticks w) (files w) (loggers w) (log_disable w) (dicts w)
          r (event_context w) (next_id w).

Definition set_event_context (c : option nat) (w : World) : World :=
  mkWorld (clock w) (ticks w) (files w) (loggers w) (log_disable w) (dicts w)
          (recorders w) c (next_id w).

Definition set_next_id (n : nat) (w : World) : World :=
  mkWorld (clock w) (ticks w) (files w) (loggers w) (log_disable w) (dicts w)
          (recorders w) (event_context w) n.

(** ** The monad of Python statements: state and exceptions *)

Inductive Res (A : Type) :=
| Ok (a : A)
| Raise (e : Fault).
Arguments Ok {A} a.
Arguments Raise {A} e.

Definition M (A : Type) : Type := World → Res A * World.

Definition ret {A} (a : A) : M A := fun w => (Ok a, w).

Definition bind {A B} (m : M A) (k : A → M B) : M B :=
  fun w =>
    match m w with
    | (Ok a, w') => k a w'
    | (Raise e, w') => (Raise e, w')
    end.

Definition raise {A} (e : Fault) : M A := fun w => (Raise e, w).

(** Reading and updating the state. *)
Definition gets {A} (f : World → A) : M A := fun w => (Ok (f w), w).
Definition modify (f : World → World) : M unit := fun w => (Ok tt, f w).

End Model.

Arguments Ok {A} a.
Arguments Raise {A} e.

(** stdpp's [x ← m; k] and [m;; k] are read in [M]. *)
#[global] Instance M_ret {PF : PyFloat} : MRet M := @ret PF.
#[global] Instance M_bind {PF : PyFloat} : MBind M := fun A B k m => bind m k.

(** ** Operations of the Python runtime *)

Section Runtime.

Context {PF : PyFloat}.

(** [time.time()]: the next reading of the clock. *)
Definition time_time : M float :=
  fun w => (Ok (clock w (ticks w)), set_ticks (S (ticks w)) w).

(** Allocation of a fresh object identity. *)
Definition fresh_id : M nat :=
  fun w => (Ok (next_id w), set_next_id (S (next_id w)) w).

(** Reading an attribute that is not bound raises [AttributeError]. *)
Definition attribute_error {A} (what : string) : M A :=
  i ← fresh_id;
  raise (mkFault i true "AttributeError" what).

(** *** Dictionaries on the heap *)

Definition dict_at (w : World) (a : nat) : pydict :=
  default [] (dicts w !! a).

(** [{}] *)
Definition dict_new : M nat :=
  a ← fresh_id;
  modify (fun w => set_dicts (<[a := []]> (dicts w)) w);;
  mret a.

(** [d[k] = v] on the object at [a] *)
Definition dict_setitem (a : nat) (k : string) (v : json) : M unit :=
  fun w => (Ok tt, set_dicts (<[a := dict_set k v (dict_at w a)]> (dicts w)) w).

(** Truth value of an [Optional[Dict]] argument. *)
Definition extra_truthy (w : World) (extra : option nat) : bool :=
  match extra with
  | None => false
  | Some a => dict_truthy (dict_at w a)
  end.

(** *** Loggers *)

(** The logger a name denotes before anyone configured it: the root logger
    starts at WARNING, any other at NOTSET; no handlers; propagating. *)
Definition fresh_logger (key : string) : Logger :=
  mkLogger (if String.eqb key "root" then WARNING else NOTSET) [] true.

Definition logger_at (lgs : gmap string Logger) (key : string) : Logger :=
  default (fresh_logger key) (lgs !! key).

(** Registry key of [logging.getLogger(name)]: the empty name and ["root"]
    both denote the root logger. *)
Definition logger_key (name : string) : string :=
  if str_truthy name then name else "root".

(** [logging.getLogger(name)]: the logger is created on first use and the
    same object is returned ever after. *)
Definition getLogger (name : string) : M string :=
  fun w =>
    let key := logger_key name in
    (Ok key, set_loggers (<[key := logger_at (loggers w) key]> (loggers w)) w).

(** Proper dotted prefixes of a name, the longest first. *)
Fixpoint dotted_prefixes (pre s : string) : list string :=
  match s with
  | EmptyString => []
  | String c s' =>
      let longer := dotted_prefixes (pre +:+ String c EmptyString) s' in
      if Ascii.eqb c "."%char then longer ++ [pre] else longer
  end.

(** The chain of [parent] links above a logger: the loggers registered
    under its dotted prefixes, then the root. (Names are taken to have no
    empty component; a prefix that names no logger contributes nothing.) *)
Definition ancestors (key : string) : list string :=
  if String.eqb key "root" then []
  else dotted_prefixes "" key ++ ["root"].

(** [Logger.getEffectiveLevel]: the first level that is set, walking up. *)
Fixpoint effective_level (lgs : gmap string Logger) (chain : list string) : Z :=
  match chain with
  | [] => NOTSET
  | k :: up =>
      let lv := lg_level (logger_at lgs k) in
      if lv =? 0 then effective_level lgs up else lv
  end.

(** [Logger.isEnabledFor(level)] *)
Definition isEnabledFor (w : World) (key : string) (level : Z) : bool :=
  if log_disable w >=? level then false
  else level >=? effective_level (loggers w) (key :: ancestors key).

(** The handlers [Logger.callHandlers] visits: those of the logger, then of
    each ancestor for as long as [propagate] is set. *)
Fixpoint handler_chain (lgs : gmap string Logger) (chain : list string)
  : list Handler :=
  match chain with
  | [] => []
  | k :: up =>
      let lg := logger_at lgs k in
      lg_handlers lg ++ (if lg_propagate lg then handler_chain lgs up else [])
  end.

Definition callHandlers (w : World) (key : string) : list Handler :=
  handler_chain (loggers w) (key :: ancestors key).

(** A handler appends one line to its file. *)
Definition append_line (path : string) (l : Line) (fs : gmap string (list Line))
  : gmap string (list Line) :=
  <[path := default [] (fs !! path) ++ [l]]> fs.

(** [Handler.handle(record)] for a record of level [level]. *)
Definition handle (level : Z) (msg : json) (fs : gmap string (list Line))
  (h : Handler) : gmap string (list Line) :=
  if level >=? h_level h then append_line (h_file h) (mkLine (h_fmt h) msg) fs
  else fs.

(** [logger.info(msg)] *)
Definition Logger_info (key : string) (msg : json) : M unit :=
  fun w =>
    if isEnabledFor w key INFO
    then (Ok tt, set_files (foldl (handle INFO msg) (files w) (callHandlers w key)) w)
    else (Ok tt, w).

(** [logger.setLevel(level)] *)
Definition Logger_setLevel (key : string) (level : Z) : M unit :=
  fun w =>
    let lg := logger_at (loggers w) key in
    (Ok tt, set_loggers
              (<[key := mkLogger level (lg_handlers lg) (lg_propagate lg)]> (loggers w)) w).

(** [logger.propagate = b] *)
Definition Logger_set_propagate (key : string) (b : bool) : M unit :=
  fun w =>
    let lg := logger_at (loggers w) key in
    (Ok tt, set_loggers
              (<[key := mkLogger (lg_level lg) (lg_handlers lg) b]> (loggers w)) w).

Definition set_handlers (key : string) (hs : list Handler) (w : World) : World :=
  let lg := logger_at (loggers w) key in
  set_loggers (<[key := mkLogger (lg_level lg) hs (lg_propagate lg)]> (loggers w)) w.

(** [hdlr in handlers]: handler objects compare by identity. *)
Definition handler_in (h : Handler) (hs : list Handler) : bool :=
  existsb (fun h' => Nat.eqb (h_id h) (h_id h')) hs.

(** [handlers.remove(hdlr)]: the first occurrence goes. *)
Fixpoint remove_first (h : Handler) (hs : list Handler) : list Handler :=
  match hs with
  | [] => []
  | h' :: hs' => if Nat.eqb (h_id h) (h_id h') then hs' else h' :: remove_first h hs'
  end.

(** [logger.addHandler(hdlr)] *)
Definition Logger_addHandler (key : string) (h : Handler) : M unit :=
  fun w =>
    let hs := lg_handlers (logger_at (loggers w) key) in
    if handler_in h hs then (Ok tt, w)
    else (Ok tt, set_handlers key (hs ++ [h]) w).

(** [logger.removeHandler(hdlr)] *)
Definition Logger_removeHandler (key : string) (h : Handler) : M unit :=
  fun w =>
    let hs := lg_handlers (logger_at (loggers w) key) in
    if handler_in h hs then (Ok tt, set_handlers key (remove_first h hs) w)
    else (Ok tt, w).

(** [logging.FileHandler(path, encoding='utf-8')] followed by
    [setFormatter(logging.Formatter(fmt))]: a new handler object; the file
    is opened for appending, hence created when it is not there. *)
Definition FileHandler (path fmt : string) : M Handler :=
  i ← fresh_id;
  modify (fun w => set_files (<[path := default [] (files w !! path)]> (files w)) w);;
  mret (mkHandler i path fmt NOTSET).

(** [for x in xs: body(x)] *)
Fixpoint for_each {A} (xs : list A) (body : A → M unit) : M unit :=
  match xs with
  | [] => ret tt
  | x :: xs' => body x ;; for_each xs' body
  end.

(** [try: body / except Exception as e: handler(e)] *)
Definition try_except_Exception {A} (body : M A) (handler : Fault → M A) : M A :=
  fun w =>
    match body w with
    | (Raise e, w') => if f_ordinary e then handler e w' else (Raise e, w')
    | ok => ok
    end.

(** [try: body / finally: final]: the final block always runs; a fault of
    its own replaces the outcome of the body. *)
Definition try_finally {A} (body : M A) (final : M unit) : M A :=
  fun w =>
    match body w with
    | (r, w') =>
        match final w' with
        | (Ok _, w'') => (r, w'')
        | (Raise e, w'') => (Raise e, w'')
        end
    end.

End Runtime.

(** ** The recorder: [class _EventContext] *)

Section EventContext.

Context {PF : PyFloat}.

(** [self.<attr>] on the instance at address [self]. *)
Definition get_self (self : nat) : M Recorder :=
  fun w =>
    match recorders w !! self with
    | Some r => (Ok r, w)
    | None => attribute_error "_EventContext" w
    end.

(** [self.<attr> = v] *)
Definition set_self (self : nat) (f : Recorder → Recorder) : M unit :=
  modify (fun w => set_recorders (alter f self (recorders w)) w).

(** [self.logger] *)
Definition self_logger (self : nat) : M string :=
  r ← get_self self;
  match logger r with
  | Some key => mret key
  | None => attribute_error "logger"
  end.

Definition with_log_file (v : string) (r : Recorder) : Recorder :=
  mkRecorder v (logger_name r) (initialized r) (logger r).
Definition with_logger_name (v : string) (r : Recorder) : Recorder :=
  mkRecorder (log_file r) v (initialized r) (logger r).
Definition with_initialized (v : bool) (r : Recorder) : Recorder :=
  mkRecorder (log_file r) (logger_name r) v (logger r).
Definition with_logger (v : string) (r : Recorder) : Recorder :=
  mkRecorder (log_file r) (logger_name r) (initialized r) (Some v).

Definition message_format : string := "%(message)s".

(** [_EventContext._setup_logger] *)
Definition _setup_logger (self : nat) : M unit :=
  r ← get_self self;
  if initialized r then mret tt
  else
    lg ← getLogger (logger_name r);
    set_self self (with_logger lg);;
    Logger_setLevel lg INFO;;
    handlers ← gets (fun w => lg_handlers (logger_at (loggers w) lg));
    match handlers with
    | [] =>
        file_handler ← FileHandler (log_file r) message_format;
        Logger_addHandler lg file_handler;;
        Logger_set_propagate lg false
    | _ => mret tt
    end;;
    set_self self (with_initialized true).

(** [_EventContext.__init__], on a newly allocated instance. *)
Definition _EventContext (log_file logger_name : string) : M nat :=
  self ← fresh_id;
  modify (fun w =>
    set_recorders (<[self := mkRecorder log_file logger_name false None]> (recorders w)) w);;
  _setup_logger self;;
  mret self.

(** Truth value of an [Optional[str]] argument. *)
Definition opt_str_truthy (o : option string) : bool :=
  match o with
  | Some s => str_truthy s
  | None => false
  end.

(** [_EventContext.reconfigure] *)
Definition reconfigure (self : nat) (log_file logger_name : option string) : M unit :=
  (if opt_str_truthy log_file
   then set_self self (with_log_file (default "" log_file))
   else mret tt);;
  (if opt_str_truthy logger_name
   then set_self self (with_logger_name (default "" logger_name))
   else mret tt);;
  lg ← self_logger self;
  snapshot ← gets (fun w => lg_handlers (logger_at (loggers w) lg));
  for_each snapshot (fun handler =>
    lg' ← self_logger self;
    Logger_removeHandler lg' handler);;
  set_self self (with_initialized false);;
  _setup_logger self.

(** The dictionary [event_record] as [_log_event] first builds it. *)
Definition event_record (request_id event_name event_type : string)
  (timestamp : float) (duration : option float) : pydict :=
  [ ("request_id", JStr request_id);
    ("event_name", JStr event_name);
    ("event_type", JStr event_type);
    ("timestamp", JNum timestamp);
    ("timestamp_iso", JStr (isoformat timestamp));
    ("duration_ms", match duration with
                    | Some d => JNum (fround (fmul_int d 1000) 3)
                    | None => JNull
                    end) ].

(** The record once [extra_data] has been looked at; [extra] is the
    content of the dictionary passed, if one was passed. *)
Definition full_record (request_id event_name event_type : string)
  (timestamp : float) (duration : option float) (extra : option pydict) : json :=
  let base := event_record request_id event_name event_type timestamp duration in
  match extra with
  | Some d => if dict_truthy d then JObj (dict_set "extra_data" (JObj d) base)
              else JObj base
  | None => JObj base
  end.

(** [_EventContext._log_event]; the message handed to the logger is the
    document [json.dumps] renders from the record at that moment. *)
Definition _log_event (self : nat) (request_id event_name event_type : string)
  (timestamp : float) (duration : option float) (extra_data : option nat) : M unit :=
  extra ← gets (fun w => dict_at w <$> extra_data);
  lg ← self_logger self;
  Logger_info lg (full_record request_id event_name event_type timestamp duration extra).

(** [extra_data or {}] *)
Definition extra_or_new (extra_data : option nat) : M nat :=
  truthy ← gets (fun w => extra_truthy w extra_data);
  match extra_data return M nat with
  | Some a => if (truthy : bool) then mret a else dict_new
  | None => dict_new
  end.

(** [range] is a generator under [@contextmanager]: entering the [with]
    statement runs it up to its [yield]; leaving resumes it there, with the
    fault of the block raised at the [yield] when the block raised; a fault
    that comes back out of the generator is the outcome of the statement.

    [range] up to its [yield]: what happens on entering the [with] block. *)
Definition range_enter (self : nat) (request_id event_name : string)
  (extra_data : option nat) : M float :=
  start_time ← time_time;
  _log_event self request_id event_name "start" start_time None extra_data;;
  mret start_time.

(** [range] from its [yield] on: the wrapped block runs at the [yield]. *)
Definition range_exit (self : nat) (request_id event_name : string)
  (extra_data : option nat) (start_time : float) (block : M unit) : M unit :=
  try_finally
    (try_except_Exception block (fun e =>
       error_extra ← extra_or_new extra_data;
       dict_setitem error_extra "error" (JStr (f_str e));;
       now ← time_time;
       _log_event self request_id event_name "error" now None (Some error_extra);;
       raise e))
    (end_time ← time_time;
     _log_event self request_id event_name "end" end_time
                (Some (fsub end_time start_time)) extra_data).

(** [with self.range(request_id, event_name, extra_data): block] *)
Definition range (self : nat) (request_id event_name : string)
  (extra_data : option nat) (block : M unit) : M unit :=
  start_time ← range_enter self request_id event_name extra_data;
  range_exit self request_id event_name extra_data start_time block.

(** [_EventContext.mark] *)
Definition mark (self : nat) (request_id event_name : string)
  (extra_data : option nat) : M unit :=
  now ← time_time;
  _log_event self request_id event_name "instant" now None extra_data.

(** ** The process-wide accessors *)

Definition default_log_file : string := "events.log".
Definition default_logger_name : string := "event_logger".

(** [get_event_logger]; an argument that is not passed is [None]. *)
Definition get_event_logger (log_file logger_name : option string) : M nat :=
  current ← gets event_context;
  match current with
  | None =>
      self ← _EventContext (default default_log_file log_file)
                           (default default_logger_name logger_name);
      modify (set_event_context (Some self));;
      mret self
  | Some self => mret self
  end.

(** [init_event_logger] *)
Definition init_event_logger (log_file logger_name : option string) : M nat :=
  self ← _EventContext (default default_log_file log_file)
                       (default default_logger_name logger_name);
  modify (set_event_context (Some self));;
  mret self.

End EventContext.

(** ** Properties *)

(** Unfolding of the monad's plumbing. *)
Ltac run_monad :=
  unfold mbind, M_bind, mret, M_ret, bind, ret, gets, modify, raise.

Ltac run_monad_in H :=
  unfold mbind, M_bind, mret, M_ret, bind, ret, gets, modify, raise in H.

Section Properties.

Context {PF : PyFloat}.

(** *** Dictionaries and records *)

Lemma dict_get_set_same (k : string) (v : json) (d : pydict) :
  dict_get k (dict_set k v d) = Some v.
Proof.
  induction d as [|[k' v'] d IH]; simpl.
  - by rewrite String.eqb_refl.
  - destruct (String.eqb k k') eqn:E; simpl; rewrite E; [done | apply IH].
Qed.

Lemma dict_set_truthy (k : string) (v : json) (d : pydict) :
  dict_truthy (dict_set k v d) = true.
Proof.
  destruct d as [|[k' v'] d]; simpl; [done|].
  by destruct (String.eqb k k').
Qed.

(** The six fixed members of a record do not depend on [extra_data]. *)
Lemma full_record_fixed rid name ty ts dur extra :
  let m := full_record rid name ty ts dur extra in
  jfield "request_id" m = Some (JStr rid) ∧
  jfield "event_name" m = Some (JStr name) ∧
  jfield "event_type" m = Some (JStr ty) ∧
  jfield "timestamp" m = Some (JNum ts) ∧
  jfield "timestamp_iso" m = Some (JStr (isoformat ts)) ∧
  jfield "duration_ms" m =
    Some (match dur with
          | Some d => JNum (fround (fmul_int d 1000) 3)
          | None => JNull
          end).
Proof.
  unfold full_record.
  destruct extra as [[|kv d]|]; simpl; repeat split; reflexivity.
Qed.

Lemma full_record_extra_some rid name ty ts dur d :
  dict_truthy d = true →
  jfield "extra_data" (full_record rid name ty ts dur (Some d)) = Some (JObj d).
Proof.
  intros Hd. unfold full_record. rewrite Hd. simpl. reflexivity.
Qed.

Lemma full_record_extra_none rid name ty ts dur :
  jfield "extra_data" (full_record rid name ty ts dur None) = None.
Proof. reflexivity. Qed.

Lemma full_record_extra_empty rid name ty ts dur :
  jfield "extra_data" (full_record rid name ty ts dur (Some [])) = None.
Proof. reflexivity. Qed.

(** *** Files *)

Definition lines_of (fs : gmap string (list Line)) (path : string) : list Line :=
  default [] (fs !! path).

Lemma append_line_spec path l fs :
  append_line path l fs = <[path := lines_of fs path ++ [l]]> fs.
Proof. reflexivity. Qed.

Lemma lines_of_insert path ls (fs : gmap string (list Line)) :
  lines_of (<[path := ls]> fs) path = ls.
Proof. unfold lines_of. by rewrite lookup_insert_eq. Qed.

Lemma append_after_insert path l ls fs :
  append_line path l (<[path := ls]> fs) = <[path := ls ++ [l]]> fs.
Proof.
  unfold append_line. rewrite lookup_insert_eq. simpl.
  by rewrite insert_insert_eq.
Qed.

(** *** Handler removal *)

Lemma remove_first_head h hs : remove_first h (h :: hs) = hs.
Proof. simpl. by rewrite Nat.eqb_refl. Qed.

Lemma handler_in_head h hs : handler_in h (h :: hs) = true.
Proof. unfold handler_in. simpl. by rewrite Nat.eqb_refl. Qed.

(** *** A recorder bound to one sink *)

(** The state construction leaves behind on a channel that had no handler:
    the recorder's logger is at INFO, carries exactly one handler that
    writes bare messages to [sink], and does not propagate. *)
Definition bound_to (w : World) (self : nat) (sink : string) : bool :=
  match recorders w !! self with
  | Some r =>
      match logger r with
      | Some key =>
          match loggers w !! key with
          | Some (mkLogger lv [h] false) =>
              (lv =? INFO) && String.eqb (h_file h) sink &&
              String.eqb (h_fmt h) message_format &&
              (h_level h <=? INFO) && (log_disable w <? INFO)
          | _ => false
          end
      | None => false
      end
  | None => false
  end.

Lemma bound_to_inv w self sink :
  bound_to w self sink = true →
  ∃ r key h,
    recorders w !! self = Some r ∧ logger r = Some key ∧
    loggers w !! key = Some (mkLogger INFO [h] false) ∧
    h_file h = sink ∧ h_fmt h = message_format ∧
    h_level h <= INFO ∧ log_disable w < INFO.
Proof.
  unfold bound_to. intros H.
  destruct (recorders w !! self) as [r|] eqn:Hr; [|done].
  destruct (logger r) as [key|] eqn:Hk; [|done].
  destruct (loggers w !! key) as [[lv hs prop]|] eqn:Hl; [|done].
  destruct hs as [|h [|h' hs]]; try done.
  destruct prop; [done|].
  apply andb_prop in H as [H Hdis]. apply andb_prop in H as [H Hlv].
  apply andb_prop in H as [H Hfmt]. apply andb_prop in H as [H Hfile].
  exists r, key, h.
  apply Z.eqb_eq in H. apply String.eqb_eq in Hfile, Hfmt.
  apply Z.leb_le in Hlv. apply Z.ltb_lt in Hdis. subst lv.
  repeat split; done.
Qed.

(** [bound_to] only looks at the recorder, the loggers and the threshold. *)
Lemma bound_to_frame w w' self sink :
  recorders w' !! self = recorders w !! self →
  loggers w' = loggers w →
  log_disable w' = log_disable w →
  bound_to w' self sink = bound_to w self sink.
Proof. intros Hr Hl Hd. unfold bound_to. by rewrite Hr, Hl, Hd. Qed.

(** What a wrapped block may not touch for the sink to show only the
    recorder's own lines: the files, the logging configuration and the
    recorder. The heap of dictionaries and the clock are free. *)
Definition quiet (self : nat) (w w' : World) : Prop :=
  files w' = files w ∧ loggers w' = loggers w ∧
  log_disable w' = log_disable w ∧
  recorders w' !! self = recorders w !! self.

Lemma bound_to_quiet w w' self sink :
  quiet self w w' → bound_to w' self sink = bound_to w self sink.
Proof. intros (_ & Hl & Hd & Hr). by apply bound_to_frame. Qed.

(** The line a bound recorder writes for a message. *)
Definition message_line (m : json) : Line := mkLine message_format m.

Lemma self_logger_run w self r key :
  recorders w !! self = Some r → logger r = Some key →
  self_logger self w = (Ok key, w).
Proof.
  intros Hr Hk. unfold self_logger, get_self. run_monad.
  by rewrite Hr, Hk.
Qed.

Lemma Logger_info_bound w key h msg :
  loggers w !! key = Some (mkLogger INFO [h] false) →
  h_level h <= INFO → log_disable w < INFO →
  Logger_info key msg w =
    (Ok tt, set_files (append_line (h_file h) (mkLine (h_fmt h) msg) (files w)) w).
Proof.
  intros Hl Hh Hd. unfold Logger_info, isEnabledFor, callHandlers.
  simpl. unfold logger_at. rewrite Hl. simpl.
  destruct (log_disable w >=? INFO) eqn:E1.
  { rewrite Z.geb_leb in E1. apply Z.leb_le in E1. lia. }
  unfold handle. 
  destruct (INFO >=? h_level h) eqn:E2; [done|].
  rewrite Z.geb_leb in E2. apply Z.leb_gt in E2. lia.
Qed.

(** One call of [_log_event] on a bound recorder appends exactly one line
    to the sink and changes nothing else. *)
Lemma log_event_run w self sink rid name ty ts dur extra :
  bound_to w self sink = true →
  _log_event self rid name ty ts dur extra w =
    (Ok tt,
     set_files (append_line sink
                  (message_line (full_record rid name ty ts dur (dict_at w <$> extra)))
                  (files w)) w).
Proof.
  intros Hb. apply bound_to_inv in Hb as (r & key & h & Hr & Hk & Hl & Hf & Hm & Hlv & Hd).
  unfold _log_event. run_monad.
  rewrite (self_logger_run w self r key Hr Hk).
  rewrite (Logger_info_bound w key h _ Hl Hlv Hd).
  by rewrite Hf, Hm.
Qed.


(** *** Running [range] and [mark] on a bound recorder *)

Lemma range_enter_run w self sink rid name extra :
  bound_to w self sink = true →
  range_enter self rid name extra w =
    (Ok (clock w (ticks w)),
     set_files (append_line sink
                  (message_line (full_record rid name "start" (clock w (ticks w)) None
                                             (dict_at w <$> extra)))
                  (files w))
               (set_ticks (S (ticks w)) w)).
Proof.
  intros Hb. unfold range_enter, time_time. run_monad.
  erewrite log_event_run; [reflexivity|].
  by erewrite bound_to_frame.
Qed.

Lemma mark_run w self sink rid name extra :
  bound_to w self sink = true →
  mark self rid name extra w =
    (Ok tt,
     set_files (append_line sink
                  (message_line (full_record rid name "instant" (clock w (ticks w)) None
                                             (dict_at w <$> extra)))
                  (files w))
               (set_ticks (S (ticks w)) w)).
Proof.
  intros Hb. unfold mark, time_time. run_monad.
  erewrite log_event_run; [reflexivity|].
  by erewrite bound_to_frame.
Qed.

(** The [finally] clause alone: the block returned, or raised a fault that
    [except Exception] does not match. *)
Lemma range_exit_unhandled w1 w2 self sink rid name extra t0 block res :
  block w1 = (res, w2) →
  match res with Ok _ => True | Raise e => f_ordinary e = false end →
  bound_to w2 self sink = true →
  let t1 := clock w2 (ticks w2) in
  range_exit self rid name extra t0 block w1 =
    (res,
     set_files (append_line sink
                  (message_line (full_record rid name "end" t1 (Some (fsub t1 t0))
                                             (dict_at w2 <$> extra)))
                  (files w2))
               (set_ticks (S (ticks w2)) w2)).
Proof.
  intros Hblock Hres Hb t1.
  unfold range_exit, try_finally, try_except_Exception.
  rewrite Hblock. unfold time_time. run_monad.
  destruct res as [[]|e]; [|rewrite Hres];
    (erewrite log_event_run; [reflexivity | by erewrite bound_to_frame]).
Qed.

(** The dictionary [extra_data or {}] evaluates to. *)
Definition error_target (w : World) (extra : option nat) : nat :=
  match extra with
  | Some a => if dict_truthy (dict_at w a) then a else next_id w
  | None => next_id w
  end.

(** The [except Exception] clause followed by the [finally] clause. *)
Lemma range_exit_exception w1 w2 self sink rid name extra t0 block e :
  block w1 = (Raise e, w2) → f_ordinary e = true →
  bound_to w2 self sink = true →
  let base := default [] (dict_at w2 <$> extra) in
  let t1 := clock w2 (ticks w2) in
  let t2 := clock w2 (S (ticks w2)) in
  ∃ w3,
    range_exit self rid name extra t0 block w1 = (Raise e, w3) ∧
    files w3 =
      append_line sink
        (message_line (full_record rid name "end" t2 (Some (fsub t2 t0))
                                   (dict_at w3 <$> extra)))
        (append_line sink
           (message_line (full_record rid name "error" t1 None
                            (Some (dict_set "error" (JStr (f_str e)) base))))
           (files w2)) ∧
    dict_at w3 (error_target w2 extra) = dict_set "error" (JStr (f_str e)) base ∧
    loggers w3 = loggers w2 ∧ recorders w3 = recorders w2 ∧
    log_disable w3 = log_disable w2 ∧ event_context w3 = event_context w2.
Proof.
  intros Hblock Hord Hb base t1 t2.
  unfold range_exit, try_finally, try_except_Exception.
  rewrite Hblock, Hord.
  unfold extra_or_new. run_monad.
  destruct extra as [a|]; simpl.
  - destruct (dict_truthy (dict_at w2 a)) eqn:Ht.
    + unfold dict_setitem, time_time.
      erewrite log_event_run; [|by erewrite bound_to_frame].
      erewrite log_event_run; [|by erewrite bound_to_frame].
      eexists. split; [reflexivity|].
      subst base t1 t2. unfold dict_at. simpl. rewrite lookup_insert_eq. simpl.
      repeat split; reflexivity.
    + unfold dict_new, fresh_id, dict_setitem, time_time. run_monad.
      erewrite log_event_run; [|by erewrite bound_to_frame].
      erewrite log_event_run; [|by erewrite bound_to_frame].
      eexists. split; [reflexivity|].
      subst base t1 t2. unfold dict_at in *. simpl. rewrite !lookup_insert_eq. simpl.
      destruct (default [] (dicts w2 !! a)) eqn:Hd; [|done].
      repeat split; reflexivity.
  - unfold dict_new, fresh_id, dict_setitem, time_time. run_monad.
    erewrite log_event_run; [|by erewrite bound_to_frame].
    erewrite log_event_run; [|by erewrite bound_to_frame].
    eexists. split; [reflexivity|].
    subst base t1 t2. unfold dict_at in *. simpl. rewrite !lookup_insert_eq. simpl.
    repeat split; reflexivity.
Qed.

(** [range] is its entry followed by its exit. *)
Lemma range_split w w1 self rid name extra block t0 :
  range_enter self rid name extra w = (Ok t0, w1) →
  range self rid name extra block w = range_exit self rid name extra t0 block w1.
Proof. intros He. unfold range. run_monad. by rewrite He. Qed.

(** What entering leaves for the block, in terms of the world before. *)
Lemma range_enter_inv w w1 self sink rid name extra t0 :
  bound_to w self sink = true →
  range_enter self rid name extra w = (Ok t0, w1) →
  t0 = clock w (ticks w) ∧
  files w1 = <[sink := lines_of (files w) sink ++
                 [message_line (full_record rid name "start" t0 None (dict_at w <$> extra))]]>
               (files w) ∧
  bound_to w1 self sink = true.
Proof.
  intros Hb He. rewrite (range_enter_run w self sink) in He by done.
  injection He as <- <-. repeat split.
  by erewrite bound_to_frame.
Qed.


(** The sink once the block is over, in terms of the sink before [range]. *)
Lemma sink_after_exit w w1 w2 sink (s : json) (rest : list Line) fs :
  files w1 = <[sink := lines_of (files w) sink ++ [message_line s]]> (files w) →
  files w2 = files w1 →
  fs = foldl (fun acc l => append_line sink l acc) (files w2) rest →
  fs = <[sink := lines_of (files w) sink ++ message_line s :: rest]> (files w).
Proof.
  intros H1 H2 ->. rewrite H2, H1. clear H1 H2.
  replace (lines_of (files w) sink ++ message_line s :: rest)
    with ((lines_of (files w) sink ++ [message_line s]) ++ rest)
    by (by rewrite <- app_assoc).
  generalize (lines_of (files w) sink ++ [message_line s]) as pre.
  induction rest as [|l rest IH]; intros pre; simpl.
  - by rewrite app_nil_r.
  - rewrite append_after_insert, IH. by rewrite <- app_assoc.
Qed.


(** [range] around a block that returns, or that raises a fault which is
    not an [Exception]: the sink gains the start and the end line. *)
Lemma range_unhandled_run w w1 w2 self sink rid name extra block t0 res :
  bound_to w self sink = true →
  range_enter self rid name extra w = (Ok t0, w1) →
  block w1 = (res, w2) →
  quiet self w1 w2 →
  match res with Ok _ => True | Raise e => f_ordinary e = false end →
  let t1 := clock w2 (ticks w2) in
  ∃ w3,
    range self rid name extra block w = (res, w3) ∧
    files w3 =
      <[sink := lines_of (files w) sink ++
          [message_line (full_record rid name "start" t0 None (dict_at w <$> extra));
           message_line (full_record rid name "end" t1 (Some (fsub t1 t0))
                                     (dict_at w2 <$> extra))]]> (files w) ∧
    dicts w3 = dicts w2.
Proof.
  intros Hb He Hblock Hq Hres t1.
  destruct (range_enter_inv _ _ _ _ _ _ _ _ Hb He) as (-> & Hf1 & Hb1).
  assert (Hb2 : bound_to w2 self sink = true) by (by rewrite (bound_to_quiet w1 w2)).
  rewrite (range_split _ _ _ _ _ _ _ _ He).
  rewrite (range_exit_unhandled w1 w2 self sink rid name extra _ block res
             Hblock Hres Hb2).
  eexists. split; [reflexivity|]. split; [|reflexivity].
  destruct Hq as (Hf2 & _). simpl.
  by apply (sink_after_exit w w1 w2 sink _ [_]).
Qed.

(** [range] around a block that raises an [Exception]: the sink gains the
    start, the error and the end line, and the dictionary the error was
    written into keeps it. *)
Lemma range_exception_run w w1 w2 self sink rid name extra block t0 e :
  bound_to w self sink = true →
  range_enter self rid name extra w = (Ok t0, w1) →
  block w1 = (Raise e, w2) →
  quiet self w1 w2 →
  f_ordinary e = true →
  let base := default [] (dict_at w2 <$> extra) in
  let t1 := clock w2 (ticks w2) in
  let t2 := clock w2 (S (ticks w2)) in
  ∃ w3,
    range self rid name extra block w = (Raise e, w3) ∧
    files w3 =
      <[sink := lines_of (files w) sink ++
          [message_line (full_record rid name "start" t0 None (dict_at w <$> extra));
           message_line (full_record rid name "error" t1 None
                           (Some (dict_set "error" (JStr (f_str e)) base)));
           message_line (full_record rid name "end" t2 (Some (fsub t2 t0))
                                     (dict_at w3 <$> extra))]]> (files w) ∧
    dict_at w3 (error_target w2 extra) = dict_set "error" (JStr (f_str e)) base.
Proof.
  intros Hb He Hblock Hq Hord base t1 t2.
  destruct (range_enter_inv _ _ _ _ _ _ _ _ Hb He) as (-> & Hf1 & Hb1).
  assert (Hb2 : bound_to w2 self sink = true) by (by rewrite (bound_to_quiet w1 w2)).
  rewrite (range_split _ _ _ _ _ _ _ _ He).
  destruct (range_exit_exception w1 w2 self sink rid name extra
              (clock w (ticks w)) block e Hblock Hord Hb2)
    as (w3 & Hrun & Hfiles & Hdict & _).
  exists w3. split; [exact Hrun|]. split; [|exact Hdict].
  destruct Hq as (Hf2 & _). rewrite Hfiles.
  by apply (sink_after_exit w w1 w2 sink _ [_; _]).
Qed.

(** *** Claims about [range], [mark] and [_log_event] *)

(** C1. Start/end pairing: when the wrapped block returns, the sink gains
    exactly two lines, a start record and then an end record; both carry
    the request id and the event name of the call, and the end record's
    [duration_ms] is [round((end.timestamp - start.timestamp) * 1000, 3)]
    for the timestamps found in the two records. *)
Theorem range_success_pairing w w1 w2 self sink rid name extra block t0 :
  bound_to w self sink = true →
  range_enter self rid name extra w = (Ok t0, w1) →
  block w1 = (Ok tt, w2) →
  quiet self w1 w2 →
  ∃ w3 s e ts te,
    range self rid name extra block w = (Ok tt, w3) ∧
    files w3 =
      <[sink := lines_of (files w) sink ++ [message_line s; message_line e]]> (files w) ∧
    jfield "event_type" s = Some (JStr "start") ∧
    jfield "event_type" e = Some (JStr "end") ∧
    jfield "request_id" s = Some (JStr rid) ∧
    jfield "request_id" e = Some (JStr rid) ∧
    jfield "event_name" s = Some (JStr name) ∧
    jfield "event_name" e = Some (JStr name) ∧
    jfield "timestamp" s = Some (JNum ts) ∧
    jfield "timestamp" e = Some (JNum te) ∧
    jfield "duration_ms" e = Some (JNum (fround (fmul_int (fsub te ts) 1000) 3)).
Proof.
  intros Hb He Hblock Hq.
  destruct (range_unhandled_run w w1 w2 self sink rid name extra block t0 (Ok tt)
              Hb He Hblock Hq I) as (w3 & Hrun & Hfiles & _).
  set (t1 := clock w2 (ticks w2)) in *.
  pose proof (full_record_fixed rid name "start" t0 None (dict_at w <$> extra)) as Hs.
  pose proof (full_record_fixed rid name "end" t1 (Some (fsub t1 t0))
                (dict_at w2 <$> extra)) as Hn.
  simpl in Hs, Hn.
  destruct Hs as (Hs1 & Hs2 & Hs3 & Hs4 & _).
  destruct Hn as (Hn1 & Hn2 & Hn3 & Hn4 & _ & Hn6).
  exists w3, (full_record rid name "start" t0 None (dict_at w <$> extra)),
    (full_record rid name "end" t1 (Some (fsub t1 t0)) (dict_at w2 <$> extra)), t0, t1.
  repeat split; assumption.
Qed.

(** C2, amended. Error ordering: when the wrapped block raises an instance
    of [Exception], the sink gains exactly three lines in the order start,
    error, end; the error record's [extra_data] has an [error] member equal
    to [str] of the fault; the caller gets the very fault the block raised. *)
Theorem range_exception_ordering w w1 w2 self sink rid name extra block t0 e :
  bound_to w self sink = true →
  range_enter self rid name extra w = (Ok t0, w1) →
  block w1 = (Raise e, w2) →
  quiet self w1 w2 →
  f_ordinary e = true →
  ∃ w3 s er en d,
    range self rid name extra block w = (Raise e, w3) ∧
    files w3 =
      <[sink := lines_of (files w) sink ++
                [message_line s; message_line er; message_line en]]> (files w) ∧
    jfield "event_type" s = Some (JStr "start") ∧
    jfield "event_type" er = Some (JStr "error") ∧
    jfield "event_type" en = Some (JStr "end") ∧
    jfield "extra_data" er = Some (JObj d) ∧
    dict_get "error" d = Some (JStr (f_str e)).
Proof.
  intros Hb He Hblock Hq Hord.
  destruct (range_exception_run w w1 w2 self sink rid name extra block t0 e
              Hb He Hblock Hq Hord) as (w3 & Hrun & Hfiles & _).
  do 4 eexists. exists (dict_set "error" (JStr (f_str e)) (default [] (dict_at w2 <$> extra))).
  split; [exact Hrun|]. split; [exact Hfiles|].
  repeat split; try apply full_record_fixed.
  - apply full_record_extra_some, dict_set_truthy.
  - apply dict_get_set_same.
Qed.


(** C3. What the code does where the claim asks for an end record free of
    the injected key: when the dictionary passed is not empty as the fault
    arrives, the error is written into that very dictionary, and the end
    record, built from it afterwards, carries the [error] member too. *)
Theorem range_exception_end_record_has_error
  w w1 w2 self sink rid name a block t0 e :
  bound_to w self sink = true →
  range_enter self rid name (Some a) w = (Ok t0, w1) →
  block w1 = (Raise e, w2) →
  quiet self w1 w2 →
  f_ordinary e = true →
  dict_truthy (dict_at w2 a) = true →
  ∃ w3 earlier en d,
    range self rid name (Some a) block w = (Raise e, w3) ∧
    lines_of (files w3) sink = earlier ++ [message_line en] ∧
    jfield "event_type" en = Some (JStr "end") ∧
    jfield "extra_data" en = Some (JObj d) ∧
    d = dict_set "error" (JStr (f_str e)) (dict_at w2 a) ∧
    dict_get "error" d = Some (JStr (f_str e)).
Proof.
  intros Hb He Hblock Hq Hord Ht.
  destruct (range_exception_run w w1 w2 self sink rid name (Some a) block t0 e
              Hb He Hblock Hq Hord) as (w3 & Hrun & Hfiles & Hdict).
  unfold error_target in Hdict. rewrite Ht in Hdict.
  change (default [] (dict_at w2 <$> Some a)) with (dict_at w2 a) in Hdict, Hfiles.
  change (dict_at w3 <$> Some a) with (Some (dict_at w3 a)) in Hfiles.
  rewrite Hdict in Hfiles.
  eexists w3, (lines_of (files w) sink ++ [_; _]), _, _.
  split; [exact Hrun|].
  split.
  { rewrite Hfiles, lines_of_insert, <- app_assoc. reflexivity. }
  split; [apply full_record_fixed|].
  split; [apply full_record_extra_some, dict_set_truthy|].
  split; [reflexivity | apply dict_get_set_same].
Qed.

(** C4, amended. Whatever fault the block raises reaches the caller
    unchanged. When it is an instance of [Exception], an error record is
    written between the start and the end record, its [extra_data] being
    the dictionary passed as it stands when the fault arrives (empty when
    none was passed) with [error] set to [str] of the fault. A fault
    outside [Exception] gets no error record: the end record follows the
    start record directly. *)
Theorem range_fault_error_record w w1 w2 self sink rid name extra block t0 e :
  bound_to w self sink = true →
  range_enter self rid name extra w = (Ok t0, w1) →
  block w1 = (Raise e, w2) →
  quiet self w1 w2 →
  ∃ w3 s en,
    range self rid name extra block w = (Raise e, w3) ∧
    jfield "event_type" s = Some (JStr "start") ∧
    jfield "event_type" en = Some (JStr "end") ∧
    if f_ordinary e then
      ∃ er,
        files w3 =
          <[sink := lines_of (files w) sink ++
                    [message_line s; message_line er; message_line en]]> (files w) ∧
        jfield "event_type" er = Some (JStr "error") ∧
        jfield "extra_data" er =
          Some (JObj (dict_set "error" (JStr (f_str e))
                               (default [] (dict_at w2 <$> extra))))
    else
      files w3 =
        <[sink := lines_of (files w) sink ++ [message_line s; message_line en]]> (files w).
Proof.
  intros Hb He Hblock Hq.
  destruct (f_ordinary e) eqn:Hord.
  - destruct (range_exception_run w w1 w2 self sink rid name extra block t0 e
                Hb He Hblock Hq Hord) as (w3 & Hrun & Hfiles & _).
    eexists w3, _, _. split; [exact Hrun|].
    split; [apply full_record_fixed|]. split; [apply full_record_fixed|].
    eexists. split; [exact Hfiles|].
    split; [apply full_record_fixed|].
    apply full_record_extra_some, dict_set_truthy.
  - destruct (range_unhandled_run w w1 w2 self sink rid name extra block t0 (Raise e)
                Hb He Hblock Hq Hord) as (w3 & Hrun & Hfiles & _).
    eexists w3, _, _. split; [exact Hrun|].
    split; [apply full_record_fixed|]. split; [apply full_record_fixed|].
    exact Hfiles.
Qed.

(** C9, amended. When the dictionary passed is not empty as an instance of
    [Exception] arrives from the block, the error is written into the
    caller's own dictionary: once [range] has re-raised, that dictionary
    holds [error] set to [str] of the fault, its other members as they
    were. *)
Theorem range_exception_mutates_extra w w1 w2 self sink rid name a block t0 e :
  bound_to w self sink = true →
  range_enter self rid name (Some a) w = (Ok t0, w1) →
  block w1 = (Raise e, w2) →
  quiet self w1 w2 →
  f_ordinary e = true →
  dict_truthy (dict_at w2 a) = true →
  ∃ w3,
    range self rid name (Some a) block w = (Raise e, w3) ∧
    dict_at w3 a = dict_set "error" (JStr (f_str e)) (dict_at w2 a) ∧
    dict_get "error" (dict_at w3 a) = Some (JStr (f_str e)).
Proof.
  intros Hb He Hblock Hq Hord Ht.
  destruct (range_exception_run w w1 w2 self sink rid name (Some a) block t0 e
              Hb He Hblock Hq Hord) as (w3 & Hrun & _ & Hdict).
  unfold error_target in Hdict. rewrite Ht in Hdict.
  change (default [] (dict_at w2 <$> Some a)) with (dict_at w2 a) in Hdict.
  exists w3. split; [exact Hrun|]. split; [exact Hdict|].
  rewrite Hdict. apply dict_get_set_same.
Qed.

(** The rule every record follows for [duration_ms]: the member is always
    there; it is [null] unless the record is an end record, where it is
    the rounded difference to the start timestamp, in milliseconds. *)
Definition duration_rule (start_ts : float) (m : json) : Prop :=
  match jfield "event_type" m with
  | Some (JStr ty) =>
      if String.eqb ty "end" then
        ∃ te, jfield "timestamp" m = Some (JNum te) ∧
              jfield "duration_ms" m =
                Some (JNum (fround (fmul_int (fsub te start_ts) 1000) 3))
      else jfield "duration_ms" m = Some JNull
  | _ => False
  end.

Lemma duration_rule_end rid name t0 te extra :
  duration_rule t0 (full_record rid name "end" te (Some (fsub te t0)) extra).
Proof.
  unfold duration_rule.
  destruct (full_record_fixed rid name "end" te (Some (fsub te t0)) extra)
    as (_ & _ & -> & Hts & _ & Hd).
  simpl. eauto.
Qed.

Lemma duration_rule_null rid name ty t0 ts extra :
  String.eqb ty "end" = false →
  duration_rule t0 (full_record rid name ty ts None extra).
Proof.
  intros Hty. unfold duration_rule.
  destruct (full_record_fixed rid name ty ts None extra)
    as (_ & _ & -> & _ & _ & Hd).
  by rewrite Hty.
Qed.

(** Whatever the block does, [range] adds to the sink a start record and
    then records that all follow the rule for [duration_ms]. *)
Lemma range_any_run w w1 w2 self sink rid name extra block t0 res :
  bound_to w self sink = true →
  range_enter self rid name extra w = (Ok t0, w1) →
  block w1 = (res, w2) →
  quiet self w1 w2 →
  ∃ w3 s ms,
    range self rid name extra block w = (res, w3) ∧
    files w3 =
      <[sink := lines_of (files w) sink ++ (message_line <$> s :: ms)]> (files w) ∧
    jfield "event_type" s = Some (JStr "start") ∧
    jfield "timestamp" s = Some (JNum t0) ∧
    Forall (duration_rule t0) (s :: ms).
Proof.
  intros Hb He Hblock Hq.
  assert (Hcase : (∃ e, res = Raise e ∧ f_ordinary e = true) ∨
                  match res with Ok _ => True | Raise e => f_ordinary e = false end).
  { destruct res as [[]|e]; [by right|].
    destruct (f_ordinary e) eqn:E; [left; eauto | by right]. }
  destruct Hcase as [(e & -> & Hord)|Hres].
  - destruct (range_exception_run w w1 w2 self sink rid name extra block t0 e
                Hb He Hblock Hq Hord) as (w3 & Hrun & Hfiles & _).
    eexists w3, _, [_; _]. split; [exact Hrun|]. split; [exact Hfiles|].
    split; [apply full_record_fixed|]. split; [apply full_record_fixed|].
    repeat constructor;
      [apply duration_rule_null | apply duration_rule_null | apply duration_rule_end];
      reflexivity.
  - destruct (range_unhandled_run w w1 w2 self sink rid name extra block t0 res
                Hb He Hblock Hq Hres) as (w3 & Hrun & Hfiles & _).
    eexists w3, _, [_]. split; [exact Hrun|]. split; [exact Hfiles|].
    split; [apply full_record_fixed|]. split; [apply full_record_fixed|].
    repeat constructor; [apply duration_rule_null | apply duration_rule_end];
      reflexivity.
Qed.

(** C5, amended. Every record [mark] and [range] write has a [duration_ms]
    member. On instant, start and error records it is [null]; on the end
    record it is the number [round((end_ts - start_ts) * 1000, 3)]. *)
Theorem duration_only_on_end_records w self sink :
  bound_to w self sink = true →
  (∀ rid name extra,
     ∃ w' m,
       mark self rid name extra w = (Ok tt, w') ∧
       files w' = <[sink := lines_of (files w) sink ++ [message_line m]]> (files w) ∧
       jfield "event_type" m = Some (JStr "instant") ∧
       jfield "duration_ms" m = Some JNull) ∧
  (∀ rid name extra block t0 w1 res w2,
     range_enter self rid name extra w = (Ok t0, w1) →
     block w1 = (res, w2) →
     quiet self w1 w2 →
     ∃ w3 s ms,
       range self rid name extra block w = (res, w3) ∧
       files w3 =
         <[sink := lines_of (files w) sink ++ (message_line <$> s :: ms)]> (files w) ∧
       jfield "event_type" s = Some (JStr "start") ∧
       jfield "timestamp" s = Some (JNum t0) ∧
       Forall (duration_rule t0) (s :: ms)).
Proof.
  intros Hb. split.
  - intros rid name extra.
    rewrite (mark_run w self sink) by done.
    eexists _, _. split; [reflexivity|].
    split; [reflexivity|]. split; apply full_record_fixed.
  - intros rid name extra block t0 w1 res w2 He Hblock Hq.
    by apply (range_any_run w w1 w2).
Qed.

(** C6. A record written without a duration has [duration_ms] equal to
    [null]; a record written without [extra_data] has no [extra_data]
    member at all. *)
Theorem log_event_absent_arguments w self sink rid name ty ts dur extra :
  bound_to w self sink = true →
  (∃ m,
     _log_event self rid name ty ts None extra w =
       (Ok tt, set_files (append_line sink (message_line m) (files w)) w) ∧
     jfield "duration_ms" m = Some JNull) ∧
  (∃ m,
     _log_event self rid name ty ts dur None w =
       (Ok tt, set_files (append_line sink (message_line m) (files w)) w) ∧
     jfield "extra_data" m = None).
Proof.
  intros Hb. split.
  - eexists. split; [by apply log_event_run|]. apply full_record_fixed.
  - eexists. split; [by apply log_event_run|]. apply full_record_extra_none.
Qed.


(** *** Construction and reconfiguration *)

Lemma alter_known {A} (f : A → A) (m : gmap nat A) i x :
  m !! i = Some x → alter f i m = <[i := f x]> m.
Proof.
  intros Hx. apply map_eq. intros j. destruct (decide (i = j)) as [<-|Hne].
  - by rewrite lookup_alter_eq, lookup_insert_eq, Hx.
  - by rewrite lookup_alter_ne, lookup_insert_ne.
Qed.

Lemma logger_at_insert lgs key lg : logger_at (<[key := lg]> lgs) key = lg.
Proof. unfold logger_at. by rewrite lookup_insert_eq. Qed.

Lemma logger_at_insert_ne lgs key key' lg :
  key ≠ key' → logger_at (<[key := lg]> lgs) key' = logger_at lgs key'.
Proof. intros Hne. unfold logger_at. by rewrite lookup_insert_ne. Qed.

(** [_setup_logger] on a recorder that is not initialized: the logger of
    its channel is put at INFO; a handler for its sink is created and
    propagation switched off only when the logger has no handler yet. *)
Lemma setup_logger_run w self r :
  recorders w !! self = Some r →
  initialized r = false →
  let key := logger_key (logger_name r) in
  let lg := logger_at (loggers w) key in
  ∃ w',
    _setup_logger self w = (Ok tt, w') ∧
    recorders w' =
      <[self := mkRecorder (log_file r) (logger_name r) true (Some key)]> (recorders w) ∧
    clock w' = clock w ∧ ticks w' = ticks w ∧ dicts w' = dicts w ∧
    log_disable w' = log_disable w ∧ event_context w' = event_context w ∧
    match lg_handlers lg with
    | [] =>
        loggers w' =
          <[key := mkLogger INFO [mkHandler (next_id w) (log_file r) message_format NOTSET]
                            false]> (loggers w) ∧
        files w' = <[log_file r := lines_of (files w) (log_file r)]> (files w) ∧
        next_id w' = S (next_id w)
    | _ =>
        loggers w' = <[key := mkLogger INFO (lg_handlers lg) (lg_propagate lg)]> (loggers w) ∧
        files w' = files w ∧
        next_id w' = next_id w
    end.
Proof.
  intros Hr Hinit key lg.
  assert (Hrec : ∀ (rs : gmap nat Recorder), rs !! self = Some r →
            alter (with_initialized true) self (alter (with_logger key) self rs) =
            <[self := mkRecorder (log_file r) (logger_name r) true (Some key)]> rs).
  { intros rs Hrs. rewrite (alter_known _ rs self r Hrs).
    rewrite (alter_known _ _ self (with_logger key r)) by apply lookup_insert_eq.
    by rewrite insert_insert_eq. }
  unfold _setup_logger, get_self, getLogger, set_self, Logger_setLevel. run_monad.
  rewrite Hr, Hinit. simpl. fold key. rewrite logger_at_insert. simpl.
  rewrite logger_at_insert. simpl. fold lg.
  destruct (lg_handlers lg) as [|h hs] eqn:Hhs.
  - unfold FileHandler, fresh_id, Logger_addHandler, Logger_set_propagate, set_handlers.
    run_monad. simpl. rewrite !logger_at_insert. simpl.
    rewrite !logger_at_insert. simpl.
    eexists. split; [reflexivity|]. simpl.
    rewrite !insert_insert_eq, (Hrec _ Hr). repeat split.
  - eexists. split; [reflexivity|]. simpl.
    rewrite !insert_insert_eq, (Hrec _ Hr). repeat split.
Qed.

(** [_EventContext(log_file, logger_name)] always succeeds; the new
    instance sits at the next free address. *)
Lemma EventContext_run w lf ln :
  let self := next_id w in
  let key := logger_key ln in
  let lg := logger_at (loggers w) key in
  ∃ w',
    _EventContext lf ln w = (Ok self, w') ∧
    recorders w' = <[self := mkRecorder lf ln true (Some key)]> (recorders w) ∧
    clock w' = clock w ∧ ticks w' = ticks w ∧ dicts w' = dicts w ∧
    log_disable w' = log_disable w ∧ event_context w' = event_context w ∧
    match lg_handlers lg with
    | [] =>
        loggers w' =
          <[key := mkLogger INFO [mkHandler (S self) lf message_format NOTSET] false]>
            (loggers w) ∧
        files w' = <[lf := lines_of (files w) lf]> (files w)
    | _ =>
        loggers w' = <[key := mkLogger INFO (lg_handlers lg) (lg_propagate lg)]> (loggers w) ∧
        files w' = files w
    end.
Proof.
  intros self key lg.
  unfold _EventContext, fresh_id. run_monad.
  set (w0 := set_recorders _ _).
  destruct (setup_logger_run w0 (next_id w) (mkRecorder lf ln false None))
    as (w' & Hrun & Hrec & Hc & Ht & Hd & Hdis & Hev & Hcase).
  { subst w0. simpl. apply lookup_insert_eq. }
  { reflexivity. }
  rewrite Hrun. exists w'. split; [reflexivity|].
  subst w0. simpl in *. rewrite insert_insert_eq in Hrec.
  repeat (split; [assumption|]).
  fold key lg in Hcase.
  destruct (lg_handlers lg); destruct Hcase as (? & ? & _); by split.
Qed.


Definition has_handlers (w : World) (key : string) : bool :=
  match lg_handlers (logger_at (loggers w) key) with
  | [] => false
  | _ => true
  end.

(** Construction on a channel without handlers binds the recorder to its
    sink: this is the state the claims about [range] and [mark] start
    from. *)
Lemma construction_binds w lf ln :
  has_handlers w (logger_key ln) = false →
  log_disable w < INFO →
  ∃ w',
    _EventContext lf ln w = (Ok (next_id w), w') ∧
    bound_to w' (next_id w) lf = true.
Proof.
  unfold has_handlers. intros Hh Hdis.
  destruct (EventContext_run w lf ln)
    as (w' & Hrun & Hrec & _ & _ & _ & Hd & _ & Hcase).
  exists w'. split; [exact Hrun|].
  destruct (lg_handlers (logger_at (loggers w) (logger_key ln))); [|discriminate].
  destruct Hcase as (Hl & _).
  unfold bound_to. rewrite Hrec, lookup_insert_eq. simpl.
  rewrite Hl, lookup_insert_eq. simpl.
  rewrite String.eqb_refl, Hd. simpl. by apply Z.ltb_lt.
Qed.

(** The handlers reached from a logger only depend on the handler lists
    and the propagation flags. *)
Lemma handler_chain_ext lgs lgs' chain :
  (∀ k, lg_handlers (logger_at lgs' k) = lg_handlers (logger_at lgs k) ∧
        lg_propagate (logger_at lgs' k) = lg_propagate (logger_at lgs k)) →
  handler_chain lgs' chain = handler_chain lgs chain.
Proof.
  intros Hsame. induction chain as [|k up IH]; simpl; [done|].
  destruct (Hsame k) as [-> ->]. by rewrite IH.
Qed.

(** Construction found the channel already equipped: nothing was opened,
    the handlers and the propagation flag of the channel are as before,
    and a message logged on the channel reaches the handlers it reached
    before. *)
Definition binding_kept (key : string) (w w' : World) : Prop :=
  files w' = files w ∧
  lg_handlers (logger_at (loggers w') key) = lg_handlers (logger_at (loggers w) key) ∧
  lg_propagate (logger_at (loggers w') key) = lg_propagate (logger_at (loggers w) key) ∧
  (∀ k, callHandlers w' k = callHandlers w k) ∧
  (∀ msg, log_disable w < INFO →
     Logger_info key msg w' =
       (Ok tt, set_files (foldl (handle INFO msg) (files w) (callHandlers w key)) w')).

Lemma binding_kept_intro key w w' :
  files w' = files w →
  log_disable w' = log_disable w →
  loggers w' =
    <[key := mkLogger INFO (lg_handlers (logger_at (loggers w) key))
                      (lg_propagate (logger_at (loggers w) key))]> (loggers w) →
  binding_kept key w w'.
Proof.
  intros Hf Hd Hl.
  assert (Hsame : ∀ k,
    lg_handlers (logger_at (loggers w') k) = lg_handlers (logger_at (loggers w) k) ∧
    lg_propagate (logger_at (loggers w') k) = lg_propagate (logger_at (loggers w) k)).
  { intros k. rewrite Hl. destruct (decide (key = k)) as [<-|Hne].
    - by rewrite logger_at_insert.
    - by rewrite logger_at_insert_ne. }
  assert (Hcall : ∀ k, callHandlers w' k = callHandlers w k).
  { intros k. unfold callHandlers. by apply handler_chain_ext. }
  split; [exact Hf|]. split; [apply Hsame|]. split; [apply Hsame|].
  split; [exact Hcall|].
  intros msg Hdis. unfold Logger_info, isEnabledFor.
  rewrite Hd, Hcall, Hf.
  destruct (log_disable w >=? INFO) eqn:E.
  { rewrite Z.geb_leb in E. apply Z.leb_le in E. lia. }
  simpl. rewrite Hl, logger_at_insert. reflexivity.
Qed.

(** C10. When the logger of the channel already has a handler at
    construction time, construction adds no handler, does not open or bind
    the sink it was given (messages go on to the handlers bound before),
    and leaves the propagation flag alone. This holds for the setup step
    shared by [__init__] and [reconfigure], hence for the constructor that
    [init_event_logger] and [get_event_logger] call. *)
Theorem setup_keeps_existing_binding w key :
  has_handlers w key = true →
  (∀ self r,
     recorders w !! self = Some r → initialized r = false →
     logger_key (logger_name r) = key →
     ∃ w', _setup_logger self w = (Ok tt, w') ∧ binding_kept key w w') ∧
  (∀ lf ln,
     logger_key ln = key →
     ∃ self w', _EventContext lf ln w = (Ok self, w') ∧ binding_kept key w w').
Proof.
  unfold has_handlers. intros Hh. split.
  - intros self r Hr Hinit <-.
    destruct (setup_logger_run w self r Hr Hinit)
      as (w' & Hrun & _ & _ & _ & _ & Hdis & _ & Hcase).
    exists w'. split; [exact Hrun|].
    destruct (lg_handlers (logger_at (loggers w) (logger_key (logger_name r)))) eqn:E;
      [discriminate|].
    destruct Hcase as (Hl & Hf & _).
    apply binding_kept_intro; [done | done |]. by rewrite E.
  - intros lf ln <-.
    destruct (EventContext_run w lf ln)
      as (w' & Hrun & _ & _ & _ & _ & Hdis & _ & Hcase).
    eexists _, w'. split; [exact Hrun|].
    destruct (lg_handlers (logger_at (loggers w) (logger_key ln))) eqn:E;
      [discriminate|].
    destruct Hcase as (Hl & Hf).
    apply binding_kept_intro; [done | done |]. by rewrite E.
Qed.

(** C8. The getter and the singleton: with the global unset, the call
    constructs a recorder from the arguments given (the defaults for those
    left out), stores it and returns it; with the global set, the call
    returns the stored recorder and changes nothing, whatever the
    arguments. *)
Theorem get_event_logger_singleton w lf ln :
  match event_context w with
  | Some self => get_event_logger lf ln w = (Ok self, w)
  | None =>
      ∃ w',
        get_event_logger lf ln w = (Ok (next_id w), w') ∧
        event_context w' = Some (next_id w) ∧
        recorders w' !! next_id w =
          Some (mkRecorder (default default_log_file lf)
                           (default default_logger_name ln) true
                           (Some (logger_key (default default_logger_name ln)))) ∧
        ∀ lf' ln', get_event_logger lf' ln' w' = (Ok (next_id w), w')
  end.
Proof.
  unfold get_event_logger. run_monad.
  destruct (event_context w) as [self|] eqn:Hctx; [reflexivity|].
  destruct (EventContext_run w (default default_log_file lf)
              (default default_logger_name ln))
    as (w' & Hrun & Hrec & _).
  rewrite Hrun. eexists. split; [reflexivity|]. simpl.
  split; [reflexivity|].
  split; [rewrite Hrec; apply lookup_insert_eq|].
  reflexivity.
Qed.


Lemma removeHandler_head w key lv h hs prop :
  loggers w !! key = Some (mkLogger lv (h :: hs) prop) →
  Logger_removeHandler key h w =
    (Ok tt, set_loggers (<[key := mkLogger lv hs prop]> (loggers w)) w).
Proof.
  intros Hl. unfold Logger_removeHandler, set_handlers, logger_at.
  rewrite Hl. cbn [default from_option id lg_handlers lg_level lg_propagate].
  by rewrite handler_in_head, remove_first_head.
Qed.

(** The loop of [reconfigure] over a copy of the handler list empties the
    handler list of the recorder's logger. *)
Lemma remove_all_handlers self r key hs :
  logger r = Some key →
  ∀ w lv prop,
    recorders w !! self = Some r →
    loggers w !! key = Some (mkLogger lv hs prop) →
    for_each hs (fun handler =>
        lg' ← self_logger self; Logger_removeHandler lg' handler) w =
      (Ok tt, set_loggers (<[key := mkLogger lv [] prop]> (loggers w)) w).
Proof.
  intros Hk. induction hs as [|h hs IH]; intros w lv prop Hr Hl.
  - simpl. unfold ret. rewrite insert_id by done. by destruct w.
  - simpl. run_monad.
    rewrite (self_logger_run w self r key Hr Hk).
    rewrite (removeHandler_head w key lv h hs prop Hl).
    erewrite IH; [|exact Hr|apply lookup_insert_eq].
    simpl. by rewrite insert_insert_eq.
Qed.

(** The state [reconfigure] hands to [_setup_logger]: arguments that are
    absent or empty leave the attribute as it was, the logger held so far
    has lost its handlers, and the recorder is marked uninitialized. *)
Definition cleared (w : World) (self : nat) (r : Recorder) (key : string)
  (lg : Logger) (log_file' logger_name' : option string) : World :=
  set_recorders
    (<[self := mkRecorder
                 (if opt_str_truthy log_file' then default "" log_file' else log_file r)
                 (if opt_str_truthy logger_name' then default "" logger_name'
                  else logger_name r)
                 false (Some key)]> (recorders w))
    (set_loggers (<[key := mkLogger (lg_level lg) [] (lg_propagate lg)]> (loggers w)) w).

Lemma reconfigure_run w self r key lg lf ln :
  recorders w !! self = Some r →
  logger r = Some key →
  loggers w !! key = Some lg →
  reconfigure self lf ln w = _setup_logger self (cleared w self r key lg lf ln).
Proof.
  intros Hr Hk Hl. unfold reconfigure, cleared.
  set (r1 := if opt_str_truthy lf then with_log_file (default "" lf) r else r).
  set (r2 := if opt_str_truthy ln then with_logger_name (default "" ln) r1 else r1).
  set (w2 := set_recorders (<[self := r2]> (recorders w)) w).
  assert (Hstep : ∀ (k : unit → M unit),
    ((if opt_str_truthy lf then set_self self (with_log_file (default "" lf))
      else mret tt);;
     (if opt_str_truthy ln then set_self self (with_logger_name (default "" ln))
      else mret tt);;
     k tt) w = k tt w2).
  { intros k. subst w2 r2 r1. unfold set_self. run_monad.
    destruct (opt_str_truthy lf), (opt_str_truthy ln); simpl;
      rewrite ?(alter_known _ (recorders w) self r Hr);
      rewrite ?(alter_known _ (<[self := _]> _) self _ (lookup_insert_eq _ _ _));
      rewrite ?insert_insert_eq; try reflexivity.
    rewrite (insert_id _ _ _ Hr). by destruct w. }
  rewrite (Hstep (fun _ =>
    lg0 ← self_logger self;
    snapshot ← gets (fun w0 => lg_handlers (logger_at (loggers w0) lg0));
    for_each snapshot
      (fun handler => lg' ← self_logger self; Logger_removeHandler lg' handler);;
    set_self self (with_initialized false);;
    _setup_logger self)).
  assert (Hr2 : recorders w2 !! self = Some r2) by apply lookup_insert_eq.
  assert (Hk2 : logger r2 = Some key).
  { subst r2 r1. by destruct (opt_str_truthy lf), (opt_str_truthy ln). }
  run_monad. rewrite (self_logger_run w2 self r2 key Hr2 Hk2).
  destruct lg as [lv hs prop].
  replace (logger_at (loggers w2) key) with (mkLogger lv hs prop)
    by (unfold logger_at; subst w2; simpl; by rewrite Hl).
  simpl.
  pose proof (remove_all_handlers self r2 key hs Hk2 w2 lv prop Hr2 Hl) as Hrm.
  run_monad_in Hrm. rewrite Hrm.
  unfold set_self. simpl.
  rewrite (alter_known _ _ self r2) by apply lookup_insert_eq.
  rewrite insert_insert_eq.
  f_equal. subst w2 r2 r1.
  destruct (opt_str_truthy lf), (opt_str_truthy ln);
    unfold with_initialized, with_logger_name, with_log_file, set_recorders, set_loggers;
    simpl; rewrite ?Hk; reflexivity.
Qed.


(** [reconfigure] with a sink only. *)
Lemma reconfigure_sink_run w self r key lg new_sink :
  recorders w !! self = Some r →
  logger r = Some key →
  logger_key (logger_name r) = key →
  loggers w !! key = Some lg →
  str_truthy new_sink = true →
  ∃ w',
    reconfigure self (Some new_sink) None w = (Ok tt, w') ∧
    recorders w' =
      <[self := mkRecorder new_sink (logger_name r) true (Some key)]> (recorders w) ∧
    loggers w' =
      <[key := mkLogger INFO [mkHandler (next_id w) new_sink message_format NOTSET] false]>
        (loggers w) ∧
    files w' = <[new_sink := lines_of (files w) new_sink]> (files w) ∧
    log_disable w' = log_disable w.
Proof.
  intros Hr Hk Hkey Hl Hs.
  rewrite (reconfigure_run w self r key lg _ _ Hr Hk Hl).
  unfold cleared. simpl. rewrite Hs.
  set (w0 := set_recorders _ _).
  destruct (setup_logger_run w0 self (mkRecorder new_sink (logger_name r) false (Some key)))
    as (w' & Hrun & Hrec & _ & _ & _ & Hdis & _ & Hcase).
  { subst w0. simpl. apply lookup_insert_eq. }
  { reflexivity. }
  exists w'. split; [exact Hrun|].
  subst w0.
  cbn [recorders loggers files log_disable next_id set_recorders set_loggers
       log_file logger_name] in *.
  rewrite Hkey in Hrec, Hcase. rewrite logger_at_insert in Hcase.
  cbn [lg_handlers] in Hcase.
  destruct Hcase as (Hlg & Hf & _).
  rewrite insert_insert_eq in Hrec. rewrite insert_insert_eq in Hlg.
  repeat split; assumption.
Qed.

(** C7. [reconfigure] empties the handler list of the logger held so far
    and runs the setup again with the attributes updated by the arguments
    that are present. After [reconfigure(new_sink)] the channel has exactly
    one handler, bound to [new_sink]; what [mark] and [range] write goes to
    [new_sink] and to no other file; and reconfiguring again leaves one
    handler once more. *)
Theorem reconfigure_replaces_sink w self r key lg :
  recorders w !! self = Some r →
  logger r = Some key →
  logger_key (logger_name r) = key →
  loggers w !! key = Some lg →
  log_disable w < INFO →
  (∀ lf ln, reconfigure self lf ln w = _setup_logger self (cleared w self r key lg lf ln)) ∧
  (∀ new_sink, str_truthy new_sink = true →
     ∃ w' h,
       reconfigure self (Some new_sink) None w = (Ok tt, w') ∧
       recorders w' !! self = Some (mkRecorder new_sink (logger_name r) true (Some key)) ∧
       loggers w' !! key = Some (mkLogger INFO [h] false) ∧
       h_file h = new_sink ∧
       (∀ rid name extra,
          ∃ w'' m,
            mark self rid name extra w' = (Ok tt, w'') ∧
            files w'' =
              <[new_sink := lines_of (files w) new_sink ++ [message_line m]]> (files w)) ∧
       (∀ rid name extra block t0 w1 res w2,
          range_enter self rid name extra w' = (Ok t0, w1) →
          block w1 = (res, w2) →
          quiet self w1 w2 →
          ∃ w3 ms,
            range self rid name extra block w' = (res, w3) ∧
            files w3 =
              <[new_sink := lines_of (files w) new_sink ++ (message_line <$> ms)]>
                (files w)) ∧
       (∀ next_sink, str_truthy next_sink = true →
          ∃ w'' h',
            reconfigure self (Some next_sink) None w' = (Ok tt, w'') ∧
            loggers w'' !! key = Some (mkLogger INFO [h'] false) ∧
            h_file h' = next_sink)).
Proof.
  intros Hr Hk Hkey Hl Hdis. split.
  { intros lf ln. by apply reconfigure_run. }
  intros new_sink Hs.
  destruct (reconfigure_sink_run w self r key lg new_sink Hr Hk Hkey Hl Hs)
    as (w' & Hrun & Hrec & Hlg & Hf & Hd).
  assert (Hr' : recorders w' !! self =
                Some (mkRecorder new_sink (logger_name r) true (Some key)))
    by (rewrite Hrec; apply lookup_insert_eq).
  assert (Hl' : loggers w' !! key =
                Some (mkLogger INFO [mkHandler (next_id w) new_sink message_format NOTSET]
                               false))
    by (rewrite Hlg; apply lookup_insert_eq).
  assert (Hb : bound_to w' self new_sink = true).
  { unfold bound_to. rewrite Hr'. simpl. rewrite Hl'. simpl.
    rewrite String.eqb_refl, Hd. simpl. by apply Z.ltb_lt. }
  exists w', (mkHandler (next_id w) new_sink message_format NOTSET).
  split; [exact Hrun|]. split; [exact Hr'|]. split; [exact Hl'|].
  split; [reflexivity|]. split; [|split].
  - intros rid name extra.
    rewrite (mark_run w' self new_sink) by done.
    eexists _, _. split; [reflexivity|]. simpl.
    rewrite Hf. apply append_after_insert.
  - intros rid name extra block t0 w1 res w2 He Hblock Hq.
    destruct (range_any_run w' w1 w2 self new_sink rid name extra block t0 res
                Hb He Hblock Hq) as (w3 & s & ms & Hrun3 & Hf3 & _).
    exists w3, (s :: ms). split; [exact Hrun3|].
    by rewrite Hf3, Hf, lines_of_insert, insert_insert_eq.
  - intros next_sink Hs'.
    destruct (reconfigure_sink_run w' self _ key _ next_sink Hr' eq_refl Hkey Hl' Hs')
      as (w'' & Hrun2 & _ & Hlg2 & _).
    exists w'', (mkHandler (next_id w') next_sink message_format NOTSET).
    split; [exact Hrun2|]. split; [|reflexivity].
    rewrite Hlg2. apply lookup_insert_eq.
Qed.

End Properties.

(** ** Concrete runs *)

(** A process whose clock reads 100, 105, 110, ... seconds, in which
    [init_event_logger("t.log", "ch")] has been called: the recorder is
    object 0 and its file handler object 1. *)
Module Demo.

#[local] Existing Instance WholeSeconds.ops.

Definition boot : World :=
  mkWorld (fun n => 100 + 5 * Z.of_nat n) 0 ∅ ∅ 0 ∅ ∅ None 0.

Definition ready : World :=
  (init_event_logger (Some "t.log") (Some "ch") boot).2.

(** [ValueError("boom")] and a [KeyboardInterrupt]. *)
Definition boom : Fault := mkFault 7 true "ValueError" "boom".
Definition interrupt : Fault := mkFault 8 false "KeyboardInterrupt" "".

(** A block that only lets time pass. *)
Definition sleep : M unit := time_time;; mret tt.

(** The caller holds [d = {"k": 1}] (object 2). *)
Definition with_extra : World :=
  ((d ← dict_new; dict_setitem d "k" (JInt 1)) ready).2.

(** The caller holds [d = {}] (object 2). *)
Definition with_empty : World := (dict_new ready).2.

(** The event types of the lines of a file. *)
Definition event_types (w : World) (path : string) : list (option json) :=
  (fun l => jfield "event_type" (ln_msg l)) <$> lines_of (files w) path.

Example ready_is_bound : bound_to ready 0 "t.log" = true.
Proof. reflexivity. Qed.

Example with_extra_dict : dict_at with_extra 2 = [("k", JInt 1)].
Proof. reflexivity. Qed.

Lemma range_success_pairing_witness :
  bound_to ready 0 "t.log" = true ∧
  ∃ w3,
    range 0 "req-1" "load" None sleep ready = (Ok tt, w3) ∧
    event_types w3 "t.log" = [Some (JStr "start"); Some (JStr "end")].
Proof.
  split; [reflexivity|].
  destruct (range_success_pairing ready
              (range_enter 0 "req-1" "load" None ready).2
              (sleep (range_enter 0 "req-1" "load" None ready).2).2
              0 "t.log" "req-1" "load" None sleep 100)
    as (w3 & s & e & ts & te & Hrun & Hfiles & Hs & He & _).
  - reflexivity.
  - reflexivity.
  - reflexivity.
  - repeat split.
  - exists w3. split; [exact Hrun|].
    unfold event_types. rewrite Hfiles, lines_of_insert.
    change (lines_of (files ready) "t.log") with (@nil Line).
    simpl. by rewrite Hs, He.
Defined.


Lemma range_exception_ordering_witness :
  bound_to with_extra 0 "t.log" = true ∧
  ∃ w3,
    range 0 "req-1" "load" (Some 2%nat) (raise boom) with_extra = (Raise boom, w3) ∧
    event_types w3 "t.log" =
      [Some (JStr "start"); Some (JStr "error"); Some (JStr "end")].
Proof.
  split; [reflexivity|].
  destruct (range_exception_ordering with_extra
              (range_enter 0 "req-1" "load" (Some 2%nat) with_extra).2
              (range_enter 0 "req-1" "load" (Some 2%nat) with_extra).2
              0 "t.log" "req-1" "load" (Some 2%nat) (raise boom) 100 boom)
    as (w3 & s & er & en & d & Hrun & Hfiles & Hs & Her & Hen & _).
  - reflexivity.
  - reflexivity.
  - reflexivity.
  - repeat split.
  - reflexivity.
  - exists w3. split; [exact Hrun|].
    unfold event_types. rewrite Hfiles, lines_of_insert.
    change (lines_of (files with_extra) "t.log") with (@nil Line).
    simpl. by rewrite Hs, Her, Hen.
Defined.

(** Not an [Exception]: the sink shows a start and an end record, two
    lines where C2 asks for three. *)
Lemma interrupt_gives_two_records :
  (range 0 "req-1" "load" None (raise interrupt) ready).1 = Raise interrupt ∧
  event_types (range 0 "req-1" "load" None (raise interrupt) ready).2 "t.log" =
    [Some (JStr "start"); Some (JStr "end")] ∧
  length (lines_of (files (range 0 "req-1" "load" None (raise interrupt) ready).2) "t.log")
    = 2%nat.
Proof. split; [reflexivity|]. split; reflexivity. Qed.

Lemma range_exception_end_record_has_error_witness :
  dict_at with_extra 2 = [("k", JInt 1)] ∧
  ∃ w3 earlier en,
    range 0 "req-1" "load" (Some 2%nat) (raise boom) with_extra = (Raise boom, w3) ∧
    lines_of (files w3) "t.log" = earlier ++ [message_line en] ∧
    jfield "event_type" en = Some (JStr "end") ∧
    jfield "extra_data" en = Some (JObj [("k", JInt 1); ("error", JStr "boom")]).
Proof.
  split; [reflexivity|].
  destruct (range_exception_end_record_has_error with_extra
              (range_enter 0 "req-1" "load" (Some 2%nat) with_extra).2
              (range_enter 0 "req-1" "load" (Some 2%nat) with_extra).2
              0 "t.log" "req-1" "load" 2%nat (raise boom) 100 boom)
    as (w3 & earlier & en & d & Hrun & Hlines & Hty & Hextra & Hd & _).
  - reflexivity.
  - reflexivity.
  - reflexivity.
  - repeat split.
  - reflexivity.
  - reflexivity.
  - exists w3, earlier, en. rewrite Hd in Hextra. by repeat split.
Defined.

Definition system_exit : Fault := mkFault 9 false "SystemExit" "0".

Lemma range_fault_error_record_witness :
  bound_to with_empty 0 "t.log" = true ∧
  ∃ w3,
    range 0 "req-1" "load" (Some 2%nat) (raise boom) with_empty = (Raise boom, w3) ∧
    ∃ s er en,
      lines_of (files w3) "t.log" = [message_line s; message_line er; message_line en] ∧
      jfield "extra_data" er = Some (JObj [("error", JStr "boom")]).
Proof.
  split; [reflexivity|].
  destruct (range_fault_error_record with_empty
              (range_enter 0 "req-1" "load" (Some 2%nat) with_empty).2
              (range_enter 0 "req-1" "load" (Some 2%nat) with_empty).2
              0 "t.log" "req-1" "load" (Some 2%nat) (raise boom) 100 boom)
    as (w3 & s & en & Hrun & _ & _ & Hcase).
  - reflexivity.
  - reflexivity.
  - reflexivity.
  - repeat split.
  - exists w3. split; [exact Hrun|].
    change (f_ordinary boom) with true in Hcase.
    destruct Hcase as (er & Hfiles & _ & Hextra).
    exists s, er, en. split; [|exact Hextra].
    by rewrite Hfiles, lines_of_insert.
Defined.

(** A [SystemExit] from the block: no error record at all, where C4 asks
    for one whatever the kind of fault. *)
Lemma system_exit_gets_no_error_record :
  (range 0 "req-2" "decode" (Some 2%nat) (raise system_exit) with_extra).1 =
    Raise system_exit ∧
  event_types (range 0 "req-2" "decode" (Some 2%nat) (raise system_exit) with_extra).2
              "t.log" = [Some (JStr "start"); Some (JStr "end")] ∧
  Some (JStr "error") ∉
    event_types (range 0 "req-2" "decode" (Some 2%nat) (raise system_exit) with_extra).2
                "t.log".
Proof.
  split; [reflexivity|]. split; [reflexivity|].
  change (event_types _ "t.log") with [Some (JStr "start"); Some (JStr "end")].
  intros H. apply elem_of_cons in H as [H|H]; [discriminate|].
  apply elem_of_cons in H as [H|H]; [discriminate|].
  by apply elem_of_nil in H.
Qed.

Lemma range_exception_mutates_extra_witness :
  dict_at with_extra 2 = [("k", JInt 1)] ∧
  ∃ w3,
    range 0 "req-1" "load" (Some 2%nat) (raise boom) with_extra = (Raise boom, w3) ∧
    dict_at w3 2 = [("k", JInt 1); ("error", JStr "boom")].
Proof.
  split; [reflexivity|].
  destruct (range_exception_mutates_extra with_extra
              (range_enter 0 "req-1" "load" (Some 2%nat) with_extra).2
              (range_enter 0 "req-1" "load" (Some 2%nat) with_extra).2
              0 "t.log" "req-1" "load" 2%nat (raise boom) 100 boom)
    as (w3 & Hrun & Hdict & _).
  - reflexivity.
  - reflexivity.
  - reflexivity.
  - repeat split.
  - reflexivity.
  - reflexivity.
  - exists w3. split; [exact Hrun | exact Hdict].
Defined.

(** The caller passes [{}]: [extra_data or {}] takes a new dictionary, and
    the caller's own stays empty, where C9 has it mutated. *)
Lemma empty_extra_is_not_mutated :
  (range 0 "req-1" "load" (Some 2%nat) (raise boom) with_empty).1 = Raise boom ∧
  dict_at with_empty 2 = [] ∧
  dict_at (range 0 "req-1" "load" (Some 2%nat) (raise boom) with_empty).2 2 = [] ∧
  dict_get "error"
    (dict_at (range 0 "req-1" "load" (Some 2%nat) (raise boom) with_empty).2 2) = None.
Proof. repeat split; reflexivity. Qed.

Lemma duration_only_on_end_records_witness :
  bound_to ready 0 "t.log" = true ∧
  ∃ w' m,
    mark 0 "req-1" "tick" None ready = (Ok tt, w') ∧
    lines_of (files w') "t.log" = [message_line m] ∧
    jfield "duration_ms" m = Some JNull.
Proof.
  split; [reflexivity|].
  destruct (duration_only_on_end_records ready 0 "t.log" eq_refl) as [Hmark _].
  destruct (Hmark "req-1" "tick" None) as (w' & m & Hrun & Hfiles & _ & Hd).
  exists w', m. split; [exact Hrun|]. split; [|exact Hd].
  by rewrite Hfiles, lines_of_insert.
Defined.

(** An instant record does carry the [duration_ms] member, with [null],
    where C5 has it absent. *)
Lemma instant_record_has_duration_member :
  (fun l => jfield "duration_ms" (ln_msg l)) <$>
    lines_of (files (mark 0 "req-1" "tick" None ready).2) "t.log" = [Some JNull] ∧
  (fun l => jfield "duration_ms" (ln_msg l)) <$>
    lines_of (files (mark 0 "req-1" "tick" None ready).2) "t.log" ≠ [None].
Proof.
  split; [reflexivity|].
  change (_ <$> lines_of _ "t.log") with [Some (@JNull WholeSeconds.ops)].
  discriminate.
Qed.

Lemma log_event_absent_arguments_witness :
  bound_to ready 0 "t.log" = true ∧
  (∃ m,
     _log_event 0 "req-1" "load" "start" 100 None (Some 2%nat) ready =
       (Ok tt, set_files (append_line "t.log" (message_line m) (files ready)) ready) ∧
     jfield "duration_ms" m = Some JNull) ∧
  (∃ m,
     _log_event 0 "req-1" "load" "start" 100 (Some 5) None ready =
       (Ok tt, set_files (append_line "t.log" (message_line m) (files ready)) ready) ∧
     jfield "extra_data" m = None).
Proof.
  split; [reflexivity|].
  apply (log_event_absent_arguments ready 0 "t.log" "req-1" "load" "start" 100
           (Some 5) (Some 2%nat)).
  reflexivity.
Defined.

Lemma reconfigure_replaces_sink_witness :
  recorders ready !! 0%nat = Some (mkRecorder "t.log" "ch" true (Some "ch")) ∧
  ∃ w' h,
    reconfigure 0 (Some "new.log") None ready = (Ok tt, w') ∧
    loggers w' !! "ch" = Some (mkLogger INFO [h] false) ∧
    h_file h = "new.log".
Proof.
  split; [reflexivity|].
  destruct (reconfigure_replaces_sink ready 0
              (mkRecorder "t.log" "ch" true (Some "ch")) "ch"
              (mkLogger INFO [mkHandler 1 "t.log" message_format NOTSET] false))
    as [_ Hsink].
  - reflexivity.
  - reflexivity.
  - reflexivity.
  - reflexivity.
  - reflexivity.
  - destruct (Hsink "new.log" eq_refl) as (w' & h & Hrun & _ & Hl & Hh & _).
    exists w', h. split; [exact Hrun|]. split; [exact Hl | exact Hh].
Defined.

Lemma setup_keeps_existing_binding_witness :
  has_handlers ready "ch" = true ∧
  ∃ self w',
    _EventContext "other.log" "ch" ready = (Ok self, w') ∧
    files w' = files ready ∧
    lg_handlers (logger_at (loggers w') "ch") =
      [mkHandler 1 "t.log" message_format NOTSET].
Proof.
  split; [reflexivity|].
  destruct (setup_keeps_existing_binding ready "ch" eq_refl) as [_ Hinit].
  destruct (Hinit "other.log" "ch" eq_refl) as (self & w' & Hrun & Hf & Hh & _).
  exists self, w'. split; [exact Hrun|]. split; [exact Hf|].
  rewrite Hh. reflexivity.
Defined.

End Demo.

(** ** Further properties of the recorder *)

Section Further.

Context {PF : PyFloat}.

(** *** Files only grow *)

(** Every file keeps the lines it had, in their order, possibly followed
    by new ones. *)
Definition grows (fs fs' : gmap string (list Line)) : Prop :=
  ∀ p, lines_of fs p `prefix_of` lines_of fs' p.

(** A statement that, run in any state, only appends to files. *)
Definition appends_only {A} (m : M A) : Prop :=
  ∀ w, grows (files w) (files (m w).2).

Lemma grows_refl fs : grows fs fs.
Proof. intros p. reflexivity. Qed.

Lemma grows_trans fs1 fs2 fs3 : grows fs1 fs2 → grows fs2 fs3 → grows fs1 fs3.
Proof. intros H1 H2 p. etrans; [apply H1 | apply H2]. Qed.

Lemma grows_append path l fs : grows fs (append_line path l fs).
Proof.
  intros p. unfold append_line, lines_of.
  destruct (decide (path = p)) as [<-|Hne].
  - rewrite lookup_insert_eq. simpl. by apply prefix_app_r.
  - by rewrite lookup_insert_ne.
Qed.

Lemma grows_touch path fs : grows fs (<[path := lines_of fs path]> fs).
Proof.
  intros p. unfold lines_of.
  destruct (decide (path = p)) as [<-|Hne].
  - by rewrite lookup_insert_eq.
  - by rewrite lookup_insert_ne.
Qed.

Lemma grows_handlers level msg hs fs : grows fs (foldl (handle level msg) fs hs).
Proof.
  revert fs. induction hs as [|h hs IH]; intros fs; simpl; [apply grows_refl|].
  eapply grows_trans; [|apply IH].
  unfold handle. destruct (level >=? h_level h); [apply grows_append | apply grows_refl].
Qed.

Lemma appends_ret {A} (a : A) : appends_only (mret a).
Proof. intros w. apply grows_refl. Qed.

Lemma appends_raise {A} (e : Fault) : appends_only (raise e : M A).
Proof. intros w. apply grows_refl. Qed.

Lemma appends_gets {A} (f : World → A) : appends_only (gets f).
Proof. intros w. apply grows_refl. Qed.

Lemma appends_modify (f : World → World) :
  (∀ w, grows (files w) (files (f w))) → appends_only (modify f).
Proof. intros Hf w. apply Hf. Qed.

Lemma appends_bind {A B} (m : M A) (k : A → M B) :
  appends_only m → (∀ a, appends_only (k a)) → appends_only (m ≫= k).
Proof.
  intros Hm Hk w. specialize (Hm w). run_monad.
  destruct (m w) as [[a|e] w'] eqn:E; simpl in *; [|exact Hm].
  eapply grows_trans; [exact Hm | apply Hk].
Qed.

Lemma appends_try_except {A} (body : M A) (handler : Fault → M A) :
  appends_only body → (∀ e, appends_only (handler e)) →
  appends_only (try_except_Exception body handler).
Proof.
  intros Hb Hh w. specialize (Hb w). unfold try_except_Exception.
  destruct (body w) as [[a|e] w'] eqn:E; simpl in *; [exact Hb|].
  destruct (f_ordinary e); [|exact Hb].
  eapply grows_trans; [exact Hb | apply Hh].
Qed.

Lemma appends_try_finally {A} (body : M A) (final : M unit) :
  appends_only body → appends_only final → appends_only (try_finally body final).
Proof.
  intros Hb Hf w. specialize (Hb w). unfold try_finally.
  destruct (body w) as [r w'] eqn:E. specialize (Hf w').
  destruct (final w') as [[u|e] w''] eqn:E'; simpl in *;
    (eapply grows_trans; [exact Hb | exact Hf]).
Qed.

Lemma appends_for_each {A} (xs : list A) (body : A → M unit) :
  (∀ x, appends_only (body x)) → appends_only (for_each xs body).
Proof.
  intros Hb. induction xs as [|x xs IH]; simpl; [apply appends_ret|].
  apply appends_bind; [apply Hb | intros _; exact IH].
Qed.


Lemma appends_keeping {A} (m : M A) :
  (∀ w, files (m w).2 = files w) → appends_only m.
Proof. intros H w. rewrite H. apply grows_refl. Qed.

Lemma appends_time_time : appends_only time_time.
Proof. by apply appends_keeping. Qed.

Lemma appends_fresh_id : appends_only fresh_id.
Proof. by apply appends_keeping. Qed.

Lemma appends_attribute_error {A} what : appends_only (attribute_error what : M A).
Proof.
  unfold attribute_error.
  apply appends_bind; [apply appends_fresh_id | intros i; apply appends_raise].
Qed.

Lemma appends_get_self self : appends_only (get_self self).
Proof.
  intros w. unfold get_self.
  destruct (recorders w !! self); [apply grows_refl | apply appends_attribute_error].
Qed.

Lemma appends_self_logger self : appends_only (self_logger self).
Proof.
  unfold self_logger. apply appends_bind; [apply appends_get_self|].
  intros r. destruct (logger r); [apply appends_ret | apply appends_attribute_error].
Qed.

Lemma appends_set_self self f : appends_only (set_self self f).
Proof. by apply appends_keeping. Qed.

Lemma appends_dict_new : appends_only dict_new.
Proof.
  unfold dict_new. apply appends_bind; [apply appends_fresh_id|].
  intros a. apply appends_bind; [by apply appends_keeping | intros _; apply appends_ret].
Qed.

Lemma appends_dict_setitem a k v : appends_only (dict_setitem a k v).
Proof. by apply appends_keeping. Qed.

Lemma appends_getLogger name : appends_only (getLogger name).
Proof. by apply appends_keeping. Qed.

Lemma appends_setLevel key level : appends_only (Logger_setLevel key level).
Proof. by apply appends_keeping. Qed.

Lemma appends_set_propagate key b : appends_only (Logger_set_propagate key b).
Proof. by apply appends_keeping. Qed.

Lemma appends_addHandler key h : appends_only (Logger_addHandler key h).
Proof.
  apply appends_keeping. intros w. unfold Logger_addHandler.
  by destruct (handler_in h _).
Qed.

Lemma appends_removeHandler key h : appends_only (Logger_removeHandler key h).
Proof.
  apply appends_keeping. intros w. unfold Logger_removeHandler.
  by destruct (handler_in h _).
Qed.

Lemma appends_FileHandler path fmt : appends_only (FileHandler path fmt).
Proof.
  unfold FileHandler. apply appends_bind; [apply appends_fresh_id|].
  intros i. apply appends_bind; [|intros _; apply appends_ret].
  apply appends_modify. intros w. apply grows_touch.
Qed.

Lemma appends_Logger_info key msg : appends_only (Logger_info key msg).
Proof.
  intros w. unfold Logger_info.
  destruct (isEnabledFor w key INFO); simpl; [apply grows_handlers | apply grows_refl].
Qed.

Lemma appends_setup_logger self : appends_only (_setup_logger self).
Proof.
  unfold _setup_logger. apply appends_bind; [apply appends_get_self|].
  intros r. destruct (initialized r); [apply appends_ret|].
  apply appends_bind; [apply appends_getLogger|]. intros lg.
  apply appends_bind; [apply appends_set_self|]. intros _.
  apply appends_bind; [apply appends_setLevel|]. intros _.
  apply appends_bind; [apply appends_gets|]. intros hs.
  apply appends_bind; [|intros _; apply appends_set_self].
  destruct hs; [|apply appends_ret].
  apply appends_bind; [apply appends_FileHandler|]. intros h.
  apply appends_bind; [apply appends_addHandler|]. intros _.
  apply appends_set_propagate.
Qed.

Lemma appends_EventContext lf ln : appends_only (_EventContext lf ln).
Proof.
  unfold _EventContext. apply appends_bind; [apply appends_fresh_id|]. intros self.
  apply appends_bind; [by apply appends_keeping|]. intros _.
  apply appends_bind; [apply appends_setup_logger|]. intros _.
  apply appends_ret.
Qed.

Lemma appends_log_event self rid name ty ts dur extra :
  appends_only (_log_event self rid name ty ts dur extra).
Proof.
  unfold _log_event. apply appends_bind; [apply appends_gets|]. intros d.
  apply appends_bind; [apply appends_self_logger|]. intros lg.
  apply appends_Logger_info.
Qed.

Lemma appends_extra_or_new extra : appends_only (extra_or_new extra).
Proof.
  unfold extra_or_new. apply appends_bind; [apply appends_gets|]. intros truthy.
  destruct extra as [a|]; [|apply appends_dict_new].
  destruct truthy; [apply appends_ret | apply appends_dict_new].
Qed.

(** X1. No operation of the module ever removes or rewrites a line of any
    file: whatever the state of the process and whatever the outcome
    (return or fault), every file has afterwards the lines it had before,
    possibly followed by new ones. For [range] this holds as soon as it
    holds of the wrapped block. *)
Theorem recorder_only_appends :
  (∀ lf ln, appends_only (_EventContext lf ln)) ∧
  (∀ self lf ln, appends_only (reconfigure self lf ln)) ∧
  (∀ self rid name extra, appends_only (mark self rid name extra)) ∧
  (∀ self rid name extra block,
     appends_only block → appends_only (range self rid name extra block)) ∧
  (∀ lf ln, appends_only (get_event_logger lf ln)) ∧
  (∀ lf ln, appends_only (init_event_logger lf ln)).
Proof.
  split; [exact appends_EventContext|].
  split.
  { intros self lf ln. unfold reconfigure.
    apply appends_bind.
    { destruct (opt_str_truthy lf); [apply appends_set_self | apply appends_ret]. }
    intros _. apply appends_bind.
    { destruct (opt_str_truthy ln); [apply appends_set_self | apply appends_ret]. }
    intros _. apply appends_bind; [apply appends_self_logger|]. intros lg.
    apply appends_bind; [apply appends_gets|]. intros hs.
    apply appends_bind.
    { apply appends_for_each. intros h.
      apply appends_bind; [apply appends_self_logger|]. intros lg'.
      apply appends_removeHandler. }
    intros _. apply appends_bind; [apply appends_set_self|]. intros _.
    apply appends_setup_logger. }
  split.
  { intros self rid name extra. unfold mark.
    apply appends_bind; [apply appends_time_time|]. intros now.
    apply appends_log_event. }
  split.
  { intros self rid name extra block Hblock. unfold range, range_enter, range_exit.
    apply appends_bind.
    { apply appends_bind; [apply appends_time_time|]. intros t.
      apply appends_bind; [apply appends_log_event|]. intros _. apply appends_ret. }
    intros t0. apply appends_try_finally.
    - apply appends_try_except; [exact Hblock|]. intros e.
      apply appends_bind; [apply appends_extra_or_new|]. intros a.
      apply appends_bind; [apply appends_dict_setitem|]. intros _.
      apply appends_bind; [apply appends_time_time|]. intros now.
      apply appends_bind; [apply appends_log_event|]. intros _.
      apply appends_raise.
    - apply appends_bind; [apply appends_time_time|]. intros t1.
      apply appends_log_event. }
  split.
  { intros lf ln. unfold get_event_logger.
    apply appends_bind; [apply appends_gets|]. intros [self|]; [apply appends_ret|].
    apply appends_bind; [apply appends_EventContext|]. intros self.
    apply appends_bind; [by apply appends_keeping | intros _; apply appends_ret]. }
  intros lf ln. unfold init_event_logger.
  apply appends_bind; [apply appends_EventContext|]. intros self.
  apply appends_bind; [by apply appends_keeping | intros _; apply appends_ret].
Qed.


(** *** The recorder invariant *)

(** A recorder in working order: it is initialized and holds the logger
    registered under its channel name. *)
Definition recorder_ok (w : World) (self : nat) : bool :=
  match recorders w !! self with
  | Some r =>
      initialized r &&
      match logger r with
      | Some key =>
          String.eqb key (logger_key (logger_name r)) &&
          match loggers w !! key with Some _ => true | None => false end
      | None => false
      end
  | None => false
  end.

Lemma recorder_ok_inv w self :
  recorder_ok w self = true →
  ∃ r lg,
    recorders w !! self = Some r ∧ initialized r = true ∧
    logger r = Some (logger_key (logger_name r)) ∧
    loggers w !! logger_key (logger_name r) = Some lg.
Proof.
  unfold recorder_ok. intros H.
  destruct (recorders w !! self) as [r|]; [|done].
  apply andb_prop in H as [Hi H].
  destruct (logger r) as [key|] eqn:Hlog; [|done].
  apply andb_prop in H as [Hk H]. apply String.eqb_eq in Hk. subst key.
  destruct (loggers w !! logger_key (logger_name r)) as [lg|] eqn:Hl; [|done].
  exists r, lg. repeat split; assumption.
Qed.



(** After the setup step the logger of the channel is registered. *)
Lemma setup_logger_registers w self r :
  recorders w !! self = Some r → initialized r = false →
  ∃ w' lg,
    _setup_logger self w = (Ok tt, w') ∧
    recorders w' !! self =
      Some (mkRecorder (log_file r) (logger_name r) true
                       (Some (logger_key (logger_name r)))) ∧
    loggers w' !! logger_key (logger_name r) = Some lg ∧
    lg_level lg = INFO ∧
    (∀ k, is_Some (loggers w !! k) → is_Some (loggers w' !! k)) ∧
    (∀ a, a ≠ self → recorders w' !! a = recorders w !! a) ∧
    (next_id w ≤ next_id w')%nat.
Proof.
  intros Hr Hi.
  destruct (setup_logger_run w self r Hr Hi)
    as (w' & Hrun & Hrec & _ & _ & _ & _ & _ & Hcase).
  assert (Hl : ∃ lg, loggers w' = <[logger_key (logger_name r) := lg]> (loggers w) ∧
                     lg_level lg = INFO ∧ (next_id w ≤ next_id w')%nat).
  { destruct (lg_handlers _); destruct Hcase as (Hl & _ & Hn);
      eexists; (split; [exact Hl|]); (split; [reflexivity | lia]). }
  destruct Hl as (lg & Hl & Hlv & Hn).
  exists w', lg. split; [exact Hrun|].
  split; [rewrite Hrec; apply lookup_insert_eq|].
  split; [rewrite Hl; apply lookup_insert_eq|].
  split; [exact Hlv|].
  split; [|split; [|exact Hn]].
  - intros k Hk. rewrite Hl.
    destruct (decide (logger_key (logger_name r) = k)) as [<-|Hne].
    + rewrite lookup_insert_eq. eauto.
    + by rewrite lookup_insert_ne.
  - intros a Ha. rewrite Hrec. by rewrite lookup_insert_ne.
Qed.

(** What construction leaves behind, whatever the state of the channel. *)
Lemma EventContext_registers w lf ln :
  ∃ w' lg,
    _EventContext lf ln w = (Ok (next_id w), w') ∧
    recorders w' !! next_id w = Some (mkRecorder lf ln true (Some (logger_key ln))) ∧
    loggers w' !! logger_key ln = Some lg ∧
    lg_level lg = INFO ∧
    (∀ k, is_Some (loggers w !! k) → is_Some (loggers w' !! k)) ∧
    (∀ a, a ≠ next_id w → recorders w' !! a = recorders w !! a) ∧
    (next_id w < next_id w')%nat ∧
    event_context w' = event_context w.
Proof.
  destruct (EventContext_run w lf ln) as (w1 & Hrun1 & _ & _ & _ & _ & _ & Hev & _).
  unfold _EventContext, fresh_id in *. run_monad. run_monad_in Hrun1.
  set (w0 := set_recorders _ _) in *.
  destruct (setup_logger_registers w0 (next_id w) (mkRecorder lf ln false None))
    as (w' & lg & Hrun & Hrec & Hl & Hlv & Hreg & Hother & Hn).
  { subst w0. simpl. apply lookup_insert_eq. }
  { reflexivity. }
  rewrite Hrun in *. injection Hrun1 as <-.
  exists w', lg. split; [reflexivity|].
  split; [exact Hrec|]. split; [exact Hl|]. split; [exact Hlv|].
  split; [exact Hreg|].
  split.
  { intros a Ha. rewrite (Hother a Ha). subst w0. simpl. by rewrite lookup_insert_ne. }
  split; [|exact Hev].
  subst w0. simpl in Hn. lia.
Qed.



(** *** The initializer and shared channels *)

(** X3. [init_event_logger] always builds a new recorder: it sits at a fresh
    address, becomes the singleton that [get_event_logger] returns from
    then on (whatever the arguments), and the recorders there were stay
    as they are. Calling it again yields yet another recorder. *)
Theorem init_event_logger_replaces w lf ln :
  ∃ w',
    init_event_logger lf ln w = (Ok (next_id w), w') ∧
    event_context w' = Some (next_id w) ∧
    recorders w' !! next_id w =
      Some (mkRecorder (default default_log_file lf) (default default_logger_name ln)
                       true (Some (logger_key (default default_logger_name ln)))) ∧
    (∀ a, a ≠ next_id w → recorders w' !! a = recorders w !! a) ∧
    (∀ lf' ln', get_event_logger lf' ln' w' = (Ok (next_id w), w')) ∧
    (∀ lf' ln',
       ∃ w'', init_event_logger lf' ln' w' = (Ok (next_id w'), w'') ∧
              next_id w' ≠ next_id w ∧
              event_context w'' = Some (next_id w') ∧
              recorders w'' !! next_id w = recorders w' !! next_id w).
Proof.
  assert (Hinit : ∀ (v : World) lf0 ln0,
    ∃ v', init_event_logger lf0 ln0 v = (Ok (next_id v), v') ∧
          event_context v' = Some (next_id v) ∧
          recorders v' !! next_id v =
            Some (mkRecorder (default default_log_file lf0)
                             (default default_logger_name ln0) true
                             (Some (logger_key (default default_logger_name ln0)))) ∧
          (∀ a, a ≠ next_id v → recorders v' !! a = recorders v !! a) ∧
          (next_id v < next_id v')%nat).
  { intros v lf0 ln0. unfold init_event_logger. run_monad.
    destruct (EventContext_registers v (default default_log_file lf0)
                (default default_logger_name ln0))
      as (v' & lg & Hrun & Hrec & _ & _ & _ & Hother & Hn & _).
    rewrite Hrun. eexists. split; [reflexivity|]. simpl.
    repeat split; assumption. }
  destruct (Hinit w lf ln) as (w' & Hrun & Hev & Hrec & Hother & Hn).
  exists w'. split; [exact Hrun|]. split; [exact Hev|]. split; [exact Hrec|].
  split; [exact Hother|]. split.
  - intros lf' ln'. unfold get_event_logger. run_monad. by rewrite Hev.
  - intros lf' ln'.
    destruct (Hinit w' lf' ln') as (w'' & Hrun' & Hev' & _ & Hother' & _).
    exists w''. split; [exact Hrun'|]. split; [lia|]. split; [exact Hev'|].
    apply Hother'. lia.
Qed.

(** X4. Two recorders on one channel: the second construction finds the
    handler of the first and adds none. Both recorders then write to the
    sink of the first, one line per record; the sink named to the second
    is kept in its [log_file] attribute but is neither opened nor written. *)
Theorem second_recorder_shares_first_sink w lf1 lf2 ln :
  has_handlers w (logger_key ln) = false →
  log_disable w < INFO →
  ∃ a b w1 w2,
    _EventContext lf1 ln w = (Ok a, w1) ∧
    _EventContext lf2 ln w1 = (Ok b, w2) ∧
    a ≠ b ∧
    bound_to w2 a lf1 = true ∧
    bound_to w2 b lf1 = true ∧
    log_file <$> recorders w2 !! b = Some lf2 ∧
    files w2 = files w1.
Proof.
  unfold has_handlers. intros Hh Hdis.
  destruct (EventContext_run w lf1 ln)
    as (w1 & Hrun1 & Hrec1 & _ & _ & _ & Hd1 & _ & Hcase1).
  destruct (lg_handlers (logger_at (loggers w) (logger_key ln))); [|discriminate].
  destruct Hcase1 as (Hl1 & _).
  destruct (EventContext_registers w lf1 ln) as (w1' & _ & Hrun1' & _ & _ & _ & _ & _ & Hn1 & _).
  rewrite Hrun1 in Hrun1'. injection Hrun1' as <-.
  destruct (EventContext_run w1 lf2 ln)
    as (w2 & Hrun2 & Hrec2 & _ & _ & _ & Hd2 & _ & Hcase2).
  rewrite Hl1, logger_at_insert in Hcase2. simpl in Hcase2.
  destruct Hcase2 as (Hl2 & Hf2).
  rewrite insert_insert_eq in Hl2.
  exists (next_id w), (next_id w1), w1, w2.
  split; [exact Hrun1|]. split; [exact Hrun2|].
  split; [lia|].
  assert (Hbound : ∀ self r, recorders w2 !! self = Some r →
                   logger r = Some (logger_key ln) → bound_to w2 self lf1 = true).
  { intros self r Hr Hk. unfold bound_to. rewrite Hr, Hk, Hl2, lookup_insert_eq.
    simpl. rewrite String.eqb_refl, Hd2, Hd1. simpl. by apply Z.ltb_lt. }
  split; [|split; [|split; [|exact Hf2]]].
  - eapply Hbound;
      [rewrite Hrec2, lookup_insert_ne by lia; rewrite Hrec1; apply lookup_insert_eq
      |reflexivity].
  - eapply Hbound; [rewrite Hrec2; apply lookup_insert_eq | reflexivity].
  - by rewrite Hrec2, lookup_insert_eq.
Qed.


(** *** [mark], and what [range] does to dictionaries *)

Lemma full_record_extra rid name ty ts dur (o : option pydict) :
  jfield "extra_data" (full_record rid name ty ts dur o) =
    match o with
    | Some d => if dict_truthy d then Some (JObj d) else None
    | None => None
    end.
Proof.
  destruct o as [d|]; [|reflexivity].
  destruct (dict_truthy d) eqn:Hd.
  - by apply full_record_extra_some.
  - unfold full_record. by rewrite Hd.
Qed.

Lemma dict_get_set_other (k k' : string) (v : json) (d : pydict) :
  k' ≠ k → dict_get k' (dict_set k v d) = dict_get k' d.
Proof.
  intros Hne. induction d as [|[k0 v0] d IH]; simpl.
  - destruct (String.eqb k' k) eqn:E; [|done]. by apply String.eqb_eq in E.
  - destruct (String.eqb k k0) eqn:E; simpl.
    + apply String.eqb_eq in E. subst k0.
      destruct (String.eqb k' k) eqn:E'; [|done]. by apply String.eqb_eq in E'.
    + by rewrite IH.
Qed.

(** X5. [mark] on a bound recorder: one clock reading is taken and one instant
    record written with it; the record names the request and the event,
    has a [null] duration, and carries the dictionary passed as it stands
    unless none was passed or it is empty, in which case the record has no
    [extra_data] member. Dictionaries and the binding are untouched. *)
Theorem mark_writes_one_instant w self sink rid name extra :
  bound_to w self sink = true →
  ∃ w' m,
    mark self rid name extra w = (Ok tt, w') ∧
    files w' = <[sink := lines_of (files w) sink ++ [message_line m]]> (files w) ∧
    jfield "request_id" m = Some (JStr rid) ∧
    jfield "event_name" m = Some (JStr name) ∧
    jfield "event_type" m = Some (JStr "instant") ∧
    jfield "timestamp" m = Some (JNum (clock w (ticks w))) ∧
    jfield "timestamp_iso" m = Some (JStr (isoformat (clock w (ticks w)))) ∧
    jfield "duration_ms" m = Some JNull ∧
    jfield "extra_data" m =
      match extra with
      | Some a => if dict_truthy (dict_at w a) then Some (JObj (dict_at w a)) else None
      | None => None
      end ∧
    ticks w' = S (ticks w) ∧ dicts w' = dicts w ∧
    bound_to w' self sink = true.
Proof.
  intros Hb. rewrite (mark_run w self sink) by done.
  eexists _, _. split; [reflexivity|]. split; [reflexivity|].
  pose proof (full_record_fixed rid name "instant" (clock w (ticks w)) None
                (dict_at w <$> extra)) as Hfix.
  simpl in Hfix. destruct Hfix as (H1 & H2 & H3 & H4 & H5 & H6).
  do 6 (split; [assumption|]).
  split; [rewrite full_record_extra; by destruct extra|].
  split; [reflexivity|]. split; [reflexivity|].
  by erewrite bound_to_frame.
Qed.

(** A recorder that exists and holds a logger. *)
Definition live (w : World) (self : nat) : bool :=
  match recorders w !! self with
  | Some r => match logger r with Some _ => true | None => false end
  | None => false
  end.

Lemma live_frame w w' self :
  recorders w' = recorders w → live w' self = live w self.
Proof. intros H. unfold live. by rewrite H. Qed.

(** The part of the state the outcome of [range] may depend on. *)
Definition same_setup (w w' : World) : Prop :=
  recorders w' = recorders w ∧ loggers w' = loggers w ∧
  event_context w' = event_context w.

Lemma same_setup_refl w : same_setup w w.
Proof. by repeat split. Qed.

Lemma same_setup_trans w1 w2 w3 :
  same_setup w1 w2 → same_setup w2 w3 → same_setup w1 w3.
Proof.
  intros (H1 & H2 & H3) (H4 & H5 & H6).
  repeat split; [by rewrite H4 | by rewrite H5 | by rewrite H6].
Qed.

Lemma live_same_setup w w' self : same_setup w w' → live w' self = live w self.
Proof. intros (H & _). by apply live_frame. Qed.

(** Run with the recorder live, the statement returns and leaves the
    setup alone. *)
Definition returns {A} (self : nat) (m : M A) : Prop :=
  ∀ w, live w self = true → ∃ a w', m w = (Ok a, w') ∧ same_setup w w'.

(** Run with the recorder live, the statement raises [e] and leaves the
    setup alone. *)
Definition raises {A} (self : nat) (e : Fault) (m : M A) : Prop :=
  ∀ w, live w self = true → ∃ w', m w = (Raise e, w') ∧ same_setup w w'.

Lemma returns_bind {A B} self (m : M A) (k : A → M B) :
  returns self m → (∀ a, returns self (k a)) → returns self (m ≫= k).
Proof.
  intros Hm Hk w Hlive. destruct (Hm w Hlive) as (a & w' & Hrun & Hs).
  destruct (Hk a w') as (b & w'' & Hrun' & Hs').
  { by rewrite (live_same_setup w w'). }
  exists b, w''. run_monad. rewrite Hrun. split; [exact Hrun'|].
  by eapply same_setup_trans.
Qed.

Lemma raises_bind {A B} self e (m : M A) (k : A → M B) :
  returns self m → (∀ a, raises self e (k a)) → raises self e (m ≫= k).
Proof.
  intros Hm Hk w Hlive. destruct (Hm w Hlive) as (a & w' & Hrun & Hs).
  destruct (Hk a w') as (w'' & Hrun' & Hs').
  { by rewrite (live_same_setup w w'). }
  exists w''. run_monad. rewrite Hrun. split; [exact Hrun'|].
  by eapply same_setup_trans.
Qed.

Lemma returns_keeping {A} self (m : M A) :
  (∀ w, ∃ a w', m w = (Ok a, w') ∧ same_setup w w') → returns self m.
Proof. intros H w _. apply H. Qed.

Lemma returns_time_time self : returns self time_time.
Proof. apply returns_keeping. intros w. eexists _, _. split; [reflexivity|]. by repeat split. Qed.

Lemma returns_dict_setitem self a k v : returns self (dict_setitem a k v).
Proof. apply returns_keeping. intros w. eexists _, _. split; [reflexivity|]. by repeat split. Qed.

Lemma returns_extra_or_new self extra : returns self (extra_or_new extra).
Proof.
  apply returns_keeping. intros w.
  unfold extra_or_new, dict_new, fresh_id. run_monad.
  destruct extra as [a|]; [destruct (extra_truthy w (Some a))|];
    eexists _, _; (split; [reflexivity|]); by repeat split.
Qed.

(** On a live recorder [_log_event] returns, and touches files only. *)
Lemma returns_log_event self rid name ty ts dur extra :
  returns self (_log_event self rid name ty ts dur extra).
Proof.
  intros w. unfold live. intros Hlive.
  destruct (recorders w !! self) as [r|] eqn:Hr; [|done].
  destruct (logger r) as [key|] eqn:Hk; [|done].
  unfold _log_event. run_monad.
  rewrite (self_logger_run w self r key Hr Hk).
  unfold Logger_info. destruct (isEnabledFor w key INFO);
    eexists _, _; (split; [reflexivity|]); by repeat split.
Qed.

(** X6. [range] hands the outcome of the block to the caller, whatever the
    logging configuration does with the records: the block's return is a
    return, the block's fault is that fault. It only takes the recorder to
    be live when the block is over. *)
Theorem range_is_transparent w w1 w2 self rid name extra block t0 res :
  range_enter self rid name extra w = (Ok t0, w1) →
  block w1 = (res, w2) →
  live w2 self = true →
  ∃ w3,
    range self rid name extra block w = (res, w3) ∧
    recorders w3 = recorders w2 ∧ loggers w3 = loggers w2 ∧
    event_context w3 = event_context w2.
Proof.
  intros He Hblock Hlive.
  rewrite (range_split _ _ _ _ _ _ _ _ He).
  assert (Hfin : returns self
            (end_time ← time_time;
             _log_event self rid name "end" end_time (Some (fsub end_time t0)) extra)).
  { apply returns_bind; [apply returns_time_time|]. intros t. apply returns_log_event. }
  assert (Herr : ∀ e, @raises unit self e
            (error_extra ← extra_or_new extra;
             dict_setitem error_extra "error" (JStr (f_str e));;
             now ← time_time;
             _log_event self rid name "error" now None (Some error_extra);;
             raise e)).
  { intros e. apply raises_bind; [apply returns_extra_or_new|]. intros a.
    apply raises_bind; [apply returns_dict_setitem|]. intros _.
    apply raises_bind; [apply returns_time_time|]. intros now.
    apply raises_bind; [apply returns_log_event|]. intros _.
    intros v _. exists v. split; [reflexivity | apply same_setup_refl]. }
  unfold range_exit, try_finally, try_except_Exception. rewrite Hblock.
  assert (Hplain : ∀ r : Res unit,
    ∃ w3, (let (r0, w') := (r, w2) in
           match (end_time ← time_time;
                  _log_event self rid name "end" end_time
                             (Some (fsub end_time t0)) extra) w' with
           | (Ok _, w'') => (r0, w'')
           | (Raise e0, w'') => (Raise e0, w'')
           end) = (r, w3) ∧ same_setup w2 w3).
  { intros r. destruct (Hfin w2 Hlive) as ([] & w3 & -> & Hs). by exists w3. }
  destruct res as [[]|e].
  - destruct (Hplain (Ok tt)) as (w3 & Hrun & Hr & Hl & Hc). by exists w3.
  - destruct (f_ordinary e).
    + destruct (Herr e w2 Hlive) as (v & -> & Hs).
      destruct (Hfin v) as ([] & w3 & -> & Hs').
      { by rewrite (live_same_setup w2 v). }
      destruct (same_setup_trans _ _ _ Hs Hs') as (Hr & Hl & Hc). by exists w3.
    + destruct (Hplain (Raise e)) as (w3 & Hrun & Hr & Hl & Hc). by exists w3.
Qed.


(** The [except] clause writes to one dictionary only. *)
Lemma range_exit_exception_dicts w1 w2 self sink rid name extra t0 block e :
  block w1 = (Raise e, w2) → f_ordinary e = true →
  bound_to w2 self sink = true →
  ∃ w3,
    range_exit self rid name extra t0 block w1 = (Raise e, w3) ∧
    ∀ b, b ≠ error_target w2 extra → dicts w3 !! b = dicts w2 !! b.
Proof.
  intros Hblock Hord Hb.
  unfold range_exit, try_finally, try_except_Exception.
  rewrite Hblock, Hord.
  unfold extra_or_new. run_monad.
  destruct extra as [a|]; simpl.
  - destruct (dict_truthy (dict_at w2 a)) eqn:Ht.
    + unfold dict_setitem, time_time.
      erewrite log_event_run; [|by erewrite bound_to_frame].
      erewrite log_event_run; [|by erewrite bound_to_frame].
      eexists. split; [reflexivity|]. simpl.
      intros b Hne. by rewrite lookup_insert_ne.
    + unfold dict_new, fresh_id, dict_setitem, time_time. run_monad.
      erewrite log_event_run; [|by erewrite bound_to_frame].
      erewrite log_event_run; [|by erewrite bound_to_frame].
      eexists. split; [reflexivity|]. simpl.
      intros b Hne. by rewrite !lookup_insert_ne.
  - unfold dict_new, fresh_id, dict_setitem, time_time. run_monad.
    erewrite log_event_run; [|by erewrite bound_to_frame].
    erewrite log_event_run; [|by erewrite bound_to_frame].
    eexists. split; [reflexivity|]. simpl.
    intros b Hne. by rewrite !lookup_insert_ne.
Qed.

Lemma range_exception_dicts w w1 w2 self sink rid name extra block t0 e w3 :
  bound_to w self sink = true →
  range_enter self rid name extra w = (Ok t0, w1) →
  block w1 = (Raise e, w2) →
  quiet self w1 w2 →
  f_ordinary e = true →
  range self rid name extra block w = (Raise e, w3) →
  ∀ b, b ≠ error_target w2 extra → dicts w3 !! b = dicts w2 !! b.
Proof.
  intros Hb He Hblock Hq Hord Hrun.
  destruct (range_enter_inv _ _ _ _ _ _ _ _ Hb He) as (_ & _ & Hb1).
  assert (Hb2 : bound_to w2 self sink = true) by (by rewrite (bound_to_quiet w1 w2)).
  rewrite (range_split _ _ _ _ _ _ _ _ He) in Hrun.
  destruct (range_exit_exception_dicts w1 w2 self sink rid name extra t0 block e
              Hblock Hord Hb2) as (w3' & Hrun' & Hd).
  rewrite Hrun in Hrun'. by injection Hrun' as <-.
Qed.

(** X7. An [Exception] from the block when no dictionary was passed, or an
    empty one: the error goes into a new dictionary. The error record
    carries just [{"error": str(e)}], the end record has no [extra_data]
    member, and the caller's empty dictionary is still empty. *)
Theorem range_exception_without_extra w w1 w2 self sink rid name extra block t0 e :
  bound_to w self sink = true →
  range_enter self rid name extra w = (Ok t0, w1) →
  block w1 = (Raise e, w2) →
  quiet self w1 w2 →
  f_ordinary e = true →
  extra_truthy w2 extra = false →
  (∀ a, extra = Some a → (a < next_id w2)%nat) →
  ∃ w3 s er en,
    range self rid name extra block w = (Raise e, w3) ∧
    files w3 =
      <[sink := lines_of (files w) sink ++
                [message_line s; message_line er; message_line en]]> (files w) ∧
    jfield "event_type" er = Some (JStr "error") ∧
    jfield "extra_data" er = Some (JObj [("error", JStr (f_str e))]) ∧
    jfield "event_type" en = Some (JStr "end") ∧
    jfield "extra_data" en = None ∧
    (∀ a, extra = Some a → dict_at w3 a = []).
Proof.
  intros Hb He Hblock Hq Hord Hfalsy Halloc.
  destruct (range_exception_run w w1 w2 self sink rid name extra block t0 e
              Hb He Hblock Hq Hord) as (w3 & Hrun & Hfiles & _).
  pose proof (range_exception_dicts w w1 w2 self sink rid name extra block t0 e w3
                Hb He Hblock Hq Hord Hrun) as Hd.
  assert (Hbase : default [] (dict_at w2 <$> extra) = []).
  { destruct extra as [a|]; [|reflexivity].
    unfold extra_truthy in Hfalsy. change (dict_at w2 a = []).
    by destruct (dict_at w2 a). }
  assert (Hkeep : ∀ a, extra = Some a → dict_at w3 a = []).
  { intros a Heq. specialize (Halloc a Heq). subst extra.
    unfold extra_truthy in Hfalsy. unfold error_target in Hd. rewrite Hfalsy in Hd.
    change (dict_at w2 a = []) in Hbase.
    unfold dict_at at 1. rewrite Hd by lia. exact Hbase. }
  rewrite Hbase in Hfiles.
  eexists w3, _, _, _. split; [exact Hrun|]. split; [exact Hfiles|].
  split; [apply full_record_fixed|].
  split; [by apply full_record_extra_some|].
  split; [apply full_record_fixed|].
  split; [|exact Hkeep].
  rewrite full_record_extra. destruct extra as [a|]; [|reflexivity].
  change (dict_at w3 <$> Some a) with (Some (dict_at w3 a)).
  by rewrite (Hkeep a eq_refl).
Qed.

(** X8. [range] changes nothing in the dictionaries but the [error] member of
    the dictionary it was given: every other member of it, and every
    member of every other dictionary, reads after [range] as it read when
    the block was over, whatever the outcome. *)
Theorem range_dictionary_frame w w1 w2 self sink rid name extra block t0 res :
  bound_to w self sink = true →
  range_enter self rid name extra w = (Ok t0, w1) →
  block w1 = (res, w2) →
  quiet self w1 w2 →
  ∃ w3,
    range self rid name extra block w = (res, w3) ∧
    ∀ b k, (b < next_id w2)%nat → ¬ (extra = Some b ∧ k = "error") →
           dict_get k (dict_at w3 b) = dict_get k (dict_at w2 b).
Proof.
  intros Hb He Hblock Hq.
  assert (Hcase : (∃ e, res = Raise e ∧ f_ordinary e = true) ∨
                  match res with Ok _ => True | Raise e => f_ordinary e = false end).
  { destruct res as [[]|e]; [by right|].
    destruct (f_ordinary e) eqn:E; [left; eauto | by right]. }
  destruct Hcase as [(e & -> & Hord)|Hres].
  - destruct (range_exception_run w w1 w2 self sink rid name extra block t0 e
                Hb He Hblock Hq Hord) as (w3 & Hrun & _ & Htarget).
    pose proof (range_exception_dicts w w1 w2 self sink rid name extra block t0 e w3
                  Hb He Hblock Hq Hord Hrun) as Hd.
    exists w3. split; [exact Hrun|].
    intros b k Hlt Hnot.
    destruct (decide (b = error_target w2 extra)) as [Heq|Hne].
    + unfold error_target in Heq.
      destruct extra as [a|]; [|lia].
      destruct (dict_truthy (dict_at w2 a)) eqn:Ht; [|lia]. subst a.
      unfold error_target in Htarget. rewrite Ht in Htarget.
      rewrite Htarget. simpl. apply dict_get_set_other.
      intros ->. by apply Hnot.
    + unfold dict_at. by rewrite Hd.
  - destruct (range_unhandled_run w w1 w2 self sink rid name extra block t0 res
                Hb He Hblock Hq Hres) as (w3 & Hrun & _ & Hd).
    exists w3. split; [exact Hrun|].
    intros b k _ _. unfold dict_at. by rewrite Hd.
Qed.


(** *** More on [reconfigure] *)

(** The sink and the channel name a recorder has after [reconfigure]. *)
Definition sink_after (r : Recorder) (lf : option string) : string :=
  if opt_str_truthy lf then default "" lf else log_file r.
Definition name_after (r : Recorder) (ln : option string) : string :=
  if opt_str_truthy ln then default "" ln else logger_name r.

(** [reconfigure] in terms of the world before, for a recorder in working
    order. *)
Lemma reconfigure_ok_run w self r lf ln :
  recorder_ok w self = true →
  recorders w !! self = Some r →
  let key := logger_key (logger_name r) in
  let key' := logger_key (name_after r ln) in
  let old := logger_at (loggers w) key in
  let emptied := <[key := mkLogger (lg_level old) [] (lg_propagate old)]> (loggers w) in
  let lg' := logger_at emptied key' in
  ∃ w',
    reconfigure self lf ln w = (Ok tt, w') ∧
    recorders w' =
      <[self := mkRecorder (sink_after r lf) (name_after r ln) true (Some key')]>
        (recorders w) ∧
    log_disable w' = log_disable w ∧
    match lg_handlers lg' with
    | [] =>
        loggers w' =
          <[key' := mkLogger INFO
                      [mkHandler (next_id w) (sink_after r lf) message_format NOTSET]
                      false]> emptied ∧
        files w' = <[sink_after r lf := lines_of (files w) (sink_after r lf)]> (files w)
    | _ =>
        loggers w' = <[key' := mkLogger INFO (lg_handlers lg') (lg_propagate lg')]> emptied ∧
        files w' = files w
    end.
Proof.
  intros Hok Hr key key' old emptied lg'.
  apply recorder_ok_inv in Hok as (r0 & lg0 & Hr0 & Hi & Hk & Hl0).
  rewrite Hr in Hr0. injection Hr0 as <-.
  rewrite (reconfigure_run w self r key lg0 lf ln Hr Hk Hl0).
  unfold cleared.
  set (w0 := set_recorders _ _).
  destruct (setup_logger_run w0 self
              (mkRecorder (sink_after r lf) (name_after r ln) false (Some key)))
    as (w' & Hrun & Hrec & _ & _ & _ & Hdis & _ & Hcase).
  { subst w0. simpl. apply lookup_insert_eq. }
  { reflexivity. }
  exists w'. split; [exact Hrun|].
  subst w0.
  cbn [recorders loggers files log_disable next_id set_recorders set_loggers
       log_file logger_name] in *.
  rewrite insert_insert_eq in Hrec.
  assert (Hold : old = lg0) by (unfold old, key, logger_at; by rewrite Hl0).
  split; [exact Hrec|]. split; [exact Hdis|].
  subst emptied lg' key'. rewrite Hold.
  destruct (lg_handlers _); destruct Hcase as (Hl & Hf & _); by split.
Qed.

(** X9. [reconfigure] without a channel name, be the sink given, left out or
    the empty string: the recorder ends up bound, through one new handler,
    to the sink given, or to the sink it had when none (or [""]) is given;
    whatever handlers its logger carried are gone and propagation is off;
    no line is written to any file. *)
Theorem reconfigure_keeps_channel w self r lf ln :
  recorder_ok w self = true →
  recorders w !! self = Some r →
  opt_str_truthy ln = false →
  log_disable w < INFO →
  ∃ w',
    reconfigure self lf ln w = (Ok tt, w') ∧
    recorders w' !! self =
      Some (mkRecorder (sink_after r lf) (logger_name r) true
                       (Some (logger_key (logger_name r)))) ∧
    loggers w' !! logger_key (logger_name r) =
      Some (mkLogger INFO [mkHandler (next_id w) (sink_after r lf) message_format NOTSET]
                     false) ∧
    bound_to w' self (sink_after r lf) = true ∧
    ∀ p, lines_of (files w') p = lines_of (files w) p.
Proof.
  intros Hok Hr Hln Hdis.
  destruct (reconfigure_ok_run w self r lf ln Hok Hr) as (w' & Hrun & Hrec & Hd & Hcase).
  unfold name_after in *. rewrite Hln in *.
  rewrite logger_at_insert in Hcase. cbn [lg_handlers] in Hcase.
  destruct Hcase as (Hl & Hf). rewrite insert_insert_eq in Hl.
  assert (Hr' : recorders w' !! self =
                Some (mkRecorder (sink_after r lf) (logger_name r) true
                                 (Some (logger_key (logger_name r)))))
    by (rewrite Hrec; apply lookup_insert_eq).
  assert (Hl' : loggers w' !! logger_key (logger_name r) =
                Some (mkLogger INFO
                        [mkHandler (next_id w) (sink_after r lf) message_format NOTSET]
                        false))
    by (rewrite Hl; apply lookup_insert_eq).
  exists w'. split; [exact Hrun|]. split; [exact Hr'|]. split; [exact Hl'|].
  split.
  - unfold bound_to. rewrite Hr'. cbn [logger]. rewrite Hl'. cbn [h_file h_fmt h_level].
    rewrite !String.eqb_refl, Hd. simpl. by apply Z.ltb_lt.
  - intros p. rewrite Hf. unfold lines_of.
    destruct (decide (sink_after r lf = p)) as [<-|Hne].
    + by rewrite lookup_insert_eq.
    + by rewrite lookup_insert_ne.
Qed.

(** X10. [reconfigure] with the name of another channel: the logger held so
    far is left without handlers, its level and propagation flag as they
    were. When the new channel has no handler the recorder gets bound to
    its sink there; when it has some, the sink is not opened and the
    handlers and the propagation flag of the new channel stay as they
    are, so the recorder writes wherever that channel writes. *)
Theorem reconfigure_to_other_channel w self r lf ln :
  recorder_ok w self = true →
  recorders w !! self = Some r →
  opt_str_truthy ln = true →
  logger_key (name_after r ln) ≠ logger_key (logger_name r) →
  log_disable w < INFO →
  let key := logger_key (logger_name r) in
  let key' := logger_key (name_after r ln) in
  ∃ w',
    reconfigure self lf ln w = (Ok tt, w') ∧
    recorders w' !! self =
      Some (mkRecorder (sink_after r lf) (name_after r ln) true (Some key')) ∧
    lg_handlers (logger_at (loggers w') key) = [] ∧
    lg_level (logger_at (loggers w') key) = lg_level (logger_at (loggers w) key) ∧
    lg_propagate (logger_at (loggers w') key) = lg_propagate (logger_at (loggers w) key) ∧
    if has_handlers w key' then
      files w' = files w ∧
      lg_handlers (logger_at (loggers w') key') = lg_handlers (logger_at (loggers w) key') ∧
      lg_propagate (logger_at (loggers w') key') =
        lg_propagate (logger_at (loggers w) key')
    else
      bound_to w' self (sink_after r lf) = true.
Proof.
  intros Hok Hr Hln Hne Hdis key key'.
  destruct (reconfigure_ok_run w self r lf ln Hok Hr) as (w' & Hrun & Hrec & Hd & Hcase).
  fold key key' in Hcase, Hne.
  rewrite logger_at_insert_ne in Hcase by done.
  assert (Hr' : recorders w' !! self =
                Some (mkRecorder (sink_after r lf) (name_after r ln) true (Some key')))
    by (rewrite Hrec; apply lookup_insert_eq).
  exists w'. split; [exact Hrun|]. split; [exact Hr'|].
  unfold has_handlers.
  destruct (lg_handlers (logger_at (loggers w) key')) as [|h hs] eqn:Hhs;
    destruct Hcase as (Hl & Hf).
  - rewrite Hl, logger_at_insert_ne, logger_at_insert by done.
    do 3 (split; [reflexivity|]).
    unfold bound_to. rewrite Hr'. cbn [logger].
    rewrite Hl, lookup_insert_eq. cbn [h_file h_fmt h_level].
    rewrite !String.eqb_refl, Hd. simpl. by apply Z.ltb_lt.
  - rewrite Hl, logger_at_insert_ne, !logger_at_insert by done.
    do 3 (split; [reflexivity|]).
    split; [exact Hf|]. by split.
Qed.


(** *** Nested ranges *)

(** A record of the given request, event and type. *)
Definition tagged (tag : string * string * string) (m : json) : Prop :=
  jfield "request_id" m = Some (JStr tag.1.1) ∧
  jfield "event_name" m = Some (JStr tag.1.2) ∧
  jfield "event_type" m = Some (JStr tag.2).

Lemma tagged_full_record rid name ty ts dur extra :
  tagged (rid, name, ty) (full_record rid name ty ts dur extra).
Proof.
  destruct (full_record_fixed rid name ty ts dur extra) as (H1 & H2 & H3 & _).
  by repeat split.
Qed.

(** X11. A range inside the block of another range of the same recorder, the
    inner block returning: the sink gains four lines, the inner pair of
    start and end enclosed by the outer pair. *)
Theorem nested_ranges_enclose w w1 w2 w3 self sink
  rid1 name1 extra1 rid2 name2 extra2 block t0 t1 :
  bound_to w self sink = true →
  range_enter self rid1 name1 extra1 w = (Ok t0, w1) →
  range_enter self rid2 name2 extra2 w1 = (Ok t1, w2) →
  block w2 = (Ok tt, w3) →
  quiet self w2 w3 →
  ∃ w5 ms,
    range self rid1 name1 extra1 (range self rid2 name2 extra2 block) w = (Ok tt, w5) ∧
    files w5 = <[sink := lines_of (files w) sink ++ (message_line <$> ms)]> (files w) ∧
    Forall2 tagged
      [(rid1, name1, "start"); (rid2, name2, "start");
       (rid2, name2, "end"); (rid1, name1, "end")] ms.
Proof.
  intros Hb He1 He2 Hblock Hq.
  destruct (range_enter_inv _ _ _ _ _ _ _ _ Hb He1) as (-> & Hf1 & Hb1).
  pose proof He2 as He2'.
  rewrite (range_enter_run w1 self sink) in He2' by done.
  injection He2' as <- Hw2.
  assert (Hb2 : bound_to w2 self sink = true).
  { rewrite <- Hw2. by erewrite bound_to_frame. }
  assert (Hb3 : bound_to w3 self sink = true) by (by rewrite (bound_to_quiet w2 w3)).
  pose proof (range_exit_unhandled w2 w3 self sink rid2 name2 extra2
                (clock w1 (ticks w1)) block (Ok tt) Hblock I Hb3) as Hinner.
  rewrite <- (range_split _ _ _ _ _ _ block _ He2) in Hinner.
  cbv zeta in Hinner.
  set (w4 := set_files _ _) in Hinner.
  assert (Hb4 : bound_to w4 self sink = true).
  { subst w4. by erewrite bound_to_frame. }
  rewrite (range_split _ _ _ _ _ _ _ _ He1).
  rewrite (range_exit_unhandled w1 w4 self sink rid1 name1 extra1 _ _ (Ok tt)
             Hinner I Hb4).
  eexists _, [_; _; _; _]. split; [reflexivity|].
  split.
  - subst w4. cbn [files set_files set_ticks].
    destruct Hq as (Hf3 & _). rewrite Hf3, <- Hw2. cbn [files set_files set_ticks].
    rewrite Hf1, !append_after_insert, <- !app_assoc. reflexivity.
  - repeat constructor; apply tagged_full_record.
Qed.


(** X12. An [Exception] raised in the block of the inner of two nested ranges
    is recorded by each of them on its way out: the inner range writes its
    error and end record, then the outer range writes its own error and
    end record, and the caller gets the fault the block raised. *)
Theorem nested_ranges_record_fault_twice w w1 w2 w3 self sink
  rid1 name1 extra1 rid2 name2 extra2 block t0 t1 e :
  bound_to w self sink = true →
  range_enter self rid1 name1 extra1 w = (Ok t0, w1) →
  range_enter self rid2 name2 extra2 w1 = (Ok t1, w2) →
  block w2 = (Raise e, w3) →
  quiet self w2 w3 →
  f_ordinary e = true →
  ∃ w5 ms,
    range self rid1 name1 extra1 (range self rid2 name2 extra2 block) w = (Raise e, w5) ∧
    files w5 = <[sink := lines_of (files w) sink ++ (message_line <$> ms)]> (files w) ∧
    Forall2 tagged
      [(rid1, name1, "start"); (rid2, name2, "start");
       (rid2, name2, "error"); (rid2, name2, "end");
       (rid1, name1, "error"); (rid1, name1, "end")] ms.
Proof.
  intros Hb He1 He2 Hblock Hq Hord.
  destruct (range_enter_inv _ _ _ _ _ _ _ _ Hb He1) as (-> & Hf1 & Hb1).
  pose proof He2 as He2'.
  rewrite (range_enter_run w1 self sink) in He2' by done.
  injection He2' as <- Hw2.
  assert (Hb2 : bound_to w2 self sink = true).
  { rewrite <- Hw2. by erewrite bound_to_frame. }
  assert (Hb3 : bound_to w3 self sink = true) by (by rewrite (bound_to_quiet w2 w3)).
  destruct (range_exit_exception w2 w3 self sink rid2 name2 extra2
              (clock w1 (ticks w1)) block e Hblock Hord Hb3)
    as (w4 & Hinner & Hf4 & _ & Hl4 & Hr4 & Hd4 & _).
  rewrite <- (range_split _ _ _ _ _ _ block _ He2) in Hinner.
  assert (Hb4 : bound_to w4 self sink = true).
  { rewrite <- Hb3. apply bound_to_frame; [by rewrite Hr4 | done | done]. }
  rewrite (range_split _ _ _ _ _ _ _ _ He1).
  destruct (range_exit_exception w1 w4 self sink rid1 name1 extra1
              (clock w (ticks w)) _ e Hinner Hord Hb4)
    as (w5 & Houter & Hf5 & _).
  eexists w5, [_; _; _; _; _; _]. split; [exact Houter|].
  split.
  - rewrite Hf5, Hf4.
    destruct Hq as (Hf3 & _). rewrite Hf3, <- Hw2. cbn [files set_files set_ticks].
    rewrite Hf1, !append_after_insert, <- !app_assoc. reflexivity.
  - repeat constructor; apply tagged_full_record.
Qed.


(** *** The getter on a fresh process *)

(** X13. The first [get_event_logger] of a process whose channel has no
    handler yet returns a recorder bound to the sink given, or to
    ["events.log"] when none is given, on the channel given, or on
    ["event_logger"]; the file is there from then on, with the lines it
    had if it existed. *)
Theorem first_getter_binds_sink w lf ln :
  event_context w = None →
  has_handlers w (logger_key (default default_logger_name ln)) = false →
  log_disable w < INFO →
  let sink := default default_log_file lf in
  ∃ self w',
    get_event_logger lf ln w = (Ok self, w') ∧
    bound_to w' self sink = true ∧
    files w' !! sink = Some (lines_of (files w) sink) ∧
    lg_propagate (logger_at (loggers w') (logger_key (default default_logger_name ln)))
      = false.
Proof.
  intros Hctx Hh Hdis sink. subst sink.
  unfold get_event_logger. run_monad. rewrite Hctx.
  destruct (EventContext_run w (default default_log_file lf)
              (default default_logger_name ln))
    as (w' & Hrun & Hrec & _ & _ & _ & Hd & _ & Hcase).
  unfold has_handlers in Hh.
  destruct (lg_handlers _); [|discriminate].
  destruct Hcase as (Hl & Hf).
  rewrite Hrun. eexists _, _. split; [reflexivity|].
  cbn [set_event_context recorders loggers files log_disable].
  split; [|split].
  - rewrite (bound_to_frame w' (set_event_context _ w')) by reflexivity.
    unfold bound_to.
    rewrite Hrec, lookup_insert_eq. cbn [logger].
    rewrite Hl, lookup_insert_eq. cbn [h_file h_fmt h_level].
    rewrite !String.eqb_refl, Hd. simpl. by apply Z.ltb_lt.
  - change (files w' !! default default_log_file lf =
            Some (lines_of (files w) (default default_log_file lf))).
    rewrite Hf. apply lookup_insert_eq.
  - change (lg_propagate
              (logger_at (loggers w') (logger_key (default default_logger_name ln)))
            = false).
    by rewrite Hl, logger_at_insert.
Qed.

End Further.

(** ** Concrete runs for the further properties *)

Module Runs.

Import Demo.
#[local] Existing Instance WholeSeconds.ops.

(** The process of [Demo.ready] after [logging.disable(50)]. *)
Definition silenced : World :=
  mkWorld (clock ready) (ticks ready) (files ready) (loggers ready) 50
          (dicts ready) (recorders ready) (event_context ready) (next_id ready).

Lemma recorder_only_appends_witness :
  appends_only sleep ∧
  grows (files ready) (files (range 0 "req-1" "load" None sleep ready).2).
Proof.
  assert (Hsleep : appends_only sleep).
  { unfold sleep. apply appends_bind; [apply appends_time_time|].
    intros t. apply appends_ret. }
  split; [exact Hsleep|].
  destruct recorder_only_appends as (_ & _ & _ & Hrange & _).
  apply (Hrange 0%nat "req-1" "load" None sleep Hsleep ready).
Defined.


Lemma second_recorder_shares_first_sink_witness :
  has_handlers boot "ch" = false ∧
  ∃ a b w1 w2,
    _EventContext "a.log" "ch" boot = (Ok a, w1) ∧
    _EventContext "b.log" "ch" w1 = (Ok b, w2) ∧
    a ≠ b ∧
    bound_to w2 a "a.log" = true ∧
    bound_to w2 b "a.log" = true ∧
    log_file <$> recorders w2 !! b = Some "b.log" ∧
    files w2 = files w1.
Proof.
  split; [reflexivity|].
  apply (second_recorder_shares_first_sink boot "a.log" "b.log" "ch").
  - reflexivity.
  - reflexivity.
Defined.

Lemma mark_writes_one_instant_witness :
  bound_to with_extra 0 "t.log" = true ∧
  ∃ w' m,
    mark 0 "req-1" "tick" (Some 2%nat) with_extra = (Ok tt, w') ∧
    lines_of (files w') "t.log" = [message_line m] ∧
    jfield "event_type" m = Some (JStr "instant") ∧
    jfield "extra_data" m = Some (JObj [("k", JInt 1)]).
Proof.
  split; [reflexivity|].
  destruct (mark_writes_one_instant with_extra 0 "t.log" "req-1" "tick" (Some 2%nat)
              eq_refl)
    as (w' & m & Hrun & Hfiles & _ & _ & Hty & _ & _ & _ & Hextra & _).
  exists w', m. split; [exact Hrun|].
  split; [by rewrite Hfiles, lines_of_insert|].
  split; [exact Hty | exact Hextra].
Defined.

Lemma range_is_transparent_witness :
  live silenced 0 = true ∧
  ∃ w3, range 0 "req-1" "load" None (raise interrupt) silenced = (Raise interrupt, w3).
Proof.
  split; [reflexivity|].
  destruct (range_is_transparent silenced
              (range_enter 0 "req-1" "load" None silenced).2
              (range_enter 0 "req-1" "load" None silenced).2
              0 "req-1" "load" None (raise interrupt) 100 (Raise interrupt))
    as (w3 & Hrun & _).
  - reflexivity.
  - reflexivity.
  - reflexivity.
  - exists w3. exact Hrun.
Defined.

Lemma range_exception_without_extra_witness :
  extra_truthy with_empty (Some 2%nat) = false ∧
  ∃ w3 s er en,
    range 0 "req-1" "load" (Some 2%nat) (raise boom) with_empty = (Raise boom, w3) ∧
    lines_of (files w3) "t.log" = [message_line s; message_line er; message_line en] ∧
    jfield "extra_data" er = Some (JObj [("error", JStr "boom")]) ∧
    jfield "extra_data" en = None ∧
    dict_at w3 2 = [].
Proof.
  split; [reflexivity|].
  destruct (range_exception_without_extra with_empty
              (range_enter 0 "req-1" "load" (Some 2%nat) with_empty).2
              (range_enter 0 "req-1" "load" (Some 2%nat) with_empty).2
              0 "t.log" "req-1" "load" (Some 2%nat) (raise boom) 100 boom)
    as (w3 & s & er & en & Hrun & Hfiles & _ & Her & _ & Hen & Hkeep).
  - reflexivity.
  - reflexivity.
  - reflexivity.
  - repeat split.
  - reflexivity.
  - reflexivity.
  - intros a [= <-]. change (next_id _) with 3%nat. lia.
  - exists w3, s, er, en. split; [exact Hrun|].
    split; [by rewrite Hfiles, lines_of_insert|].
    split; [exact Her|]. split; [exact Hen|]. by apply Hkeep.
Defined.

Lemma range_dictionary_frame_witness :
  dict_at with_extra 2 = [("k", JInt 1)] ∧
  ∃ w3,
    range 0 "req-1" "load" (Some 2%nat) (raise boom) with_extra = (Raise boom, w3) ∧
    dict_get "k" (dict_at w3 2) = Some (JInt 1).
Proof.
  split; [reflexivity|].
  destruct (range_dictionary_frame with_extra
              (range_enter 0 "req-1" "load" (Some 2%nat) with_extra).2
              (range_enter 0 "req-1" "load" (Some 2%nat) with_extra).2
              0 "t.log" "req-1" "load" (Some 2%nat) (raise boom) 100 (Raise boom))
    as (w3 & Hrun & Hframe).
  - reflexivity.
  - reflexivity.
  - reflexivity.
  - repeat split.
  - exists w3. split; [exact Hrun|].
    rewrite (Hframe 2%nat "k").
    + reflexivity.
    + change (next_id _) with 3%nat. lia.
    + intros [_ H]. discriminate H.
Defined.

Lemma reconfigure_keeps_channel_witness :
  recorder_ok ready 0 = true ∧
  ∃ w',
    reconfigure 0 (Some "") None ready = (Ok tt, w') ∧
    bound_to w' 0 "t.log" = true ∧
    ∀ p, lines_of (files w') p = lines_of (files ready) p.
Proof.
  split; [reflexivity|].
  destruct (reconfigure_keeps_channel ready 0
              (mkRecorder "t.log" "ch" true (Some "ch")) (Some "") None)
    as (w' & Hrun & _ & _ & Hb & Hlines).
  - reflexivity.
  - reflexivity.
  - reflexivity.
  - reflexivity.
  - exists w'. split; [exact Hrun|]. split; [exact Hb | exact Hlines].
Defined.

Lemma reconfigure_to_other_channel_witness :
  recorder_ok ready 0 = true ∧
  ∃ w',
    reconfigure 0 None (Some "other") ready = (Ok tt, w') ∧
    lg_handlers (logger_at (loggers w') "ch") = [] ∧
    bound_to w' 0 "t.log" = true.
Proof.
  split; [reflexivity|].
  destruct (reconfigure_to_other_channel ready 0
              (mkRecorder "t.log" "ch" true (Some "ch")) None (Some "other"))
    as (w' & Hrun & _ & Hold & _ & _ & Hcase).
  - reflexivity.
  - reflexivity.
  - reflexivity.
  - change ("other" ≠ "ch"). discriminate.
  - reflexivity.
  - exists w'. split; [exact Hrun|]. split; [exact Hold|].
    change (has_handlers ready _) with false in Hcase. exact Hcase.
Defined.

Lemma nested_ranges_enclose_witness :
  bound_to ready 0 "t.log" = true ∧
  ∃ w5 ms,
    range 0 "req-1" "load" None (range 0 "req-1" "decode" None sleep) ready = (Ok tt, w5) ∧
    files w5 = <[ "t.log" := lines_of (files ready) "t.log" ++ (message_line <$> ms)]>
                 (files ready) ∧
    Forall2 tagged
      [("req-1", "load", "start"); ("req-1", "decode", "start");
       ("req-1", "decode", "end"); ("req-1", "load", "end")] ms.
Proof.
  split; [reflexivity|].
  apply (nested_ranges_enclose ready
           (range_enter 0 "req-1" "load" None ready).2
           (range_enter 0 "req-1" "decode" None
              (range_enter 0 "req-1" "load" None ready).2).2
           (sleep (range_enter 0 "req-1" "decode" None
                     (range_enter 0 "req-1" "load" None ready).2).2).2
           0 "t.log" "req-1" "load" None "req-1" "decode" None sleep 100 105).
  - reflexivity.
  - reflexivity.
  - reflexivity.
  - reflexivity.
  - repeat split.
Defined.

Lemma nested_ranges_record_fault_twice_witness :
  bound_to ready 0 "t.log" = true ∧
  ∃ w5 ms,
    range 0 "req-1" "load" None (range 0 "req-1" "decode" None (raise boom)) ready
      = (Raise boom, w5) ∧
    files w5 = <[ "t.log" := lines_of (files ready) "t.log" ++ (message_line <$> ms)]>
                 (files ready) ∧
    Forall2 tagged
      [("req-1", "load", "start"); ("req-1", "decode", "start");
       ("req-1", "decode", "error"); ("req-1", "decode", "end");
       ("req-1", "load", "error"); ("req-1", "load", "end")] ms.
Proof.
  split; [reflexivity|].
  apply (nested_ranges_record_fault_twice ready
           (range_enter 0 "req-1" "load" None ready).2
           (range_enter 0 "req-1" "decode" None
              (range_enter 0 "req-1" "load" None ready).2).2
           (range_enter 0 "req-1" "decode" None
              (range_enter 0 "req-1" "load" None ready).2).2
           0 "t.log" "req-1" "load" None "req-1" "decode" None (raise boom) 100 105 boom).
  - reflexivity.
  - reflexivity.
  - reflexivity.
  - reflexivity.
  - repeat split.
  - reflexivity.
Defined.

Lemma first_getter_binds_sink_witness :
  event_context boot = None ∧
  ∃ self w',
    get_event_logger None None boot = (Ok self, w') ∧
    bound_to w' self "events.log" = true.
Proof.
  split; [reflexivity|].
  destruct (first_getter_binds_sink boot None None) as (self & w' & Hrun & Hb & _).
  - reflexivity.
  - reflexivity.
  - reflexivity.
  - exists self, w'. split; [exact Hrun | exact Hb].
Defined.

End Runs.
